(** * DevCycle Go server SDK: event queue, payload dispatch and retrying requests

    A shallow embedding of [eventqueue.go] and of the request plumbing of
    [client.go] ([Track], [performRequest], [exponentialBackoff]).

    Conventions of the embedding.
    - A Go [error] is an [option error]; [None] is [nil].  A Go call that
      returns [(v, err)], and whose callers read [v] only when [err] is nil,
      returns a [result]: the error or the value.
    - A Go slice is an [option (list A)]: [None] is the nil slice, [Some []]
      is what [make([]T, 0)] gives.  The code tests slices against nil.
    - [atomic.Int32] counters are integers kept in the int32 range by
      [int32_wrap].
    - The bucketing engine ([DevCycleLocalBucketing]), the pool of engines
      ([BucketingPool]), [encoding/json], [net/http] and [math/rand] are
      collaborators whose code is outside these files.  They are an interface
      ([Collaborators]) over an arbitrary world state; every call through the
      interface is recorded in a log, so that "the engine is never called"
      is a statement about the log.
    - float64 values ([exponentialBackoff]) are the rationals they stand
      for.
    - The background ticker goroutine of [initialize] and the [flushStop]
      channel are not part of the embedding. *)

From Stdlib Require Import ZArith List String Bool Lia QArith Qpower Qround Lqa.
From Stdlib Require Import Permutation.
Import ListNotations.

Local Open Scope Z_scope.

Set Implicit Arguments.

(** ** Data model *)

(** Go errors that the two files create or pass on. *)
Inductive error : Type :=
| ErrClosed               (* "DevCycle client was closed, no more events can be tracked." *)
| ErrQueueFull            (* "Max event queue size reached, dropping event" *)
| ErrAggregateQueueFull   (* "Max event queue size reached, dropping aggregate event" *)
| ErrEventTypeRequired    (* "event type is required" *)
| ErrNilResponse          (* "Nil httpResponse" *)
| Err5xx                  (* "5xx error on request" *)
| ErrMaxRetriesReached    (* try: "exceeded retry limit" *)
| ErrGeneric (body : string) (msg : string)      (* GenericError of handleError *)
| ErrOther (msg : string).                       (* an error of a collaborator *)

(** [err.Error()]. *)
Definition Error (e : error) : string :=
  match e with
  | ErrClosed => "DevCycle client was closed, no more events can be tracked."
  | ErrQueueFull => "Max event queue size reached, dropping event"
  | ErrAggregateQueueFull => "Max event queue size reached, dropping aggregate event"
  | ErrEventTypeRequired => "event type is required"
  | ErrNilResponse => "Nil httpResponse"
  | Err5xx => "5xx error on request"
  | ErrMaxRetriesReached => "exceeded retry limit"
  | ErrGeneric _ msg => msg
  | ErrOther msg => msg
  end%string.

Definition is_nil (e : option error) : bool :=
  match e with None => true | Some _ => false end.

(** Slices with Go's nil. *)
Definition slice (A : Type) : Type := option (list A).

Definition elems {A : Type} (s : slice A) : list A :=
  match s with None => [] | Some l => l end.

Definition append {A : Type} (s : slice A) (x : A) : slice A :=
  Some (elems s ++ [x]).

Definition make_slice (A : Type) : slice A := Some [].

(** [atomic.Int32]: addition wraps around in 32 bits, two's complement. *)
Definition int32_wrap (z : Z) : Z := (z + 2 ^ 31) mod 2 ^ 32 - 2 ^ 31.

Definition int32_Add (v delta : Z) : Z := int32_wrap (v + delta).

Definition int32_of_len {A : Type} (l : list A) : Z :=
  int32_wrap (Z.of_nat (List.length l)).

(** Types declared outside the two files; only the fields that the code
    reads are kept. *)
Record DVCOptions : Type := {
  EnableCloudBucketing : bool;
  EnableEdgeDB : bool;
  DisableAutomaticEventLogging : bool;
  DisableCustomEventLogging : bool;
  FlushEventQueueSize : Z;
  MaxEventQueueSize : Z }.

Record HTTPConfiguration : Type := {
  BasePath : string;
  EventsAPIBasePath : string }.

Record DVCUser : Type := { UserId : string }.

Record DVCEvent : Type := { Type_ : string; Target : string }.

Record BucketedUserConfig : Type := { ConfigBlob : string }.

Record FlushPayload : Type := {
  PayloadId : string;
  Records : list string }.

Record FlushResult : Type := {
  SuccessPayloads : slice string;
  FailurePayloads : slice string;
  FailureWithRetryPayloads : slice string }.

Record Request : Type := {
  req_method : string;
  req_url : string;
  req_body : string;
  req_headers : list (string * string) }.

(** An [http.Response]: the status code and what reading the body to its end
    gives ([io.ReadAll]: the bytes and an error). *)
Record Response : Type := {
  StatusCode : Z;
  Status : string;
  ContentType : string;
  Body : string * option error }.

(** The body that [Track] posts in cloud mode. *)
Record UserDataAndEventsBody : Type := {
  User : DVCUser;
  Events : list DVCEvent }.

Definition Header_Set (r : Request) (k v : string) : Request :=
  {| req_method := req_method r; req_url := req_url r; req_body := req_body r;
     req_headers := req_headers r ++ [(k, v)] |}.

(** The calls made on collaborators, in the order they are made. *)
Inductive Call : Type :=
| Call_queueEvent (user event : string)
| Call_queueAggregateEvent (event : string) (config : BucketedUserConfig)
| Call_checkEventQueueSize
| Call_startFlushEvents
| Call_finishFlushEvents
| Call_flushEventQueue
| Call_HandleFlushResults (r : FlushResult)
| Call_onPayloadSuccess (id : string)
| Call_onPayloadFailure (id : string) (retry : bool)
| Call_object_FlushEvents (obj : nat)
| Call_object_HandleFlushResults (obj : nat) (r : FlushResult)
| Call_HTTPClient_Do (req : Request)
| Call_Sleep (ms : Z).

(** A Go call returning [(v, err)] whose caller looks at [v] only when [err]
    is nil: [inl err] or [inr v]. *)
Definition result (A : Type) : Type := (error + A)%type.

(** The collaborators, over a world state [W].  [net/http] gives a request
    (a response) exactly when it gives no error, so [http.NewRequest] and
    [Client.Do] are results as well. *)
Class Collaborators (W : Type) : Type := {
  (* DevCycleLocalBucketing *)
  lb_sdkKey : W -> string;
  lb_queueEvent : string -> string -> W -> option error * W;
  lb_queueAggregateEvent : string -> BucketedUserConfig -> W -> option error * W;
  lb_checkEventQueueSize : W -> result Z * W;
  lb_startFlushEvents : W -> W;
  lb_finishFlushEvents : W -> W;
  lb_flushEventQueue : W -> result (list FlushPayload) * W;
  lb_HandleFlushResults : FlushResult -> W -> W;
  lb_onPayloadSuccess : string -> W -> option error * W;
  lb_onPayloadFailure : string -> bool -> W -> option error * W;
  (* BucketingPool and its BucketingPoolObjects *)
  pool_objects : W -> list nat;
  object_FlushEvents : nat -> W -> result (list FlushPayload) * W;
  object_HandleFlushResults : nat -> FlushResult -> W -> W;
  (* encoding/json *)
  json_Marshal_user : DVCUser -> result string;
  json_Marshal_event : DVCEvent -> result string;
  json_Marshal_batch : list string -> result string;
  (* net/http *)
  http_NewRequest : string -> string -> string -> result Request;
  HTTPClient_Do : Request -> W -> result Response * W;
  url_Parse : string -> result string;
  (* helpers of the generated client, declared outside the two files *)
  setBody : UserDataAndEventsBody -> string -> result string;
  decode_nil : string -> string -> option error;
  decode_ErrorResponse : string -> string -> option error;
  getPopulatedUser : DVCUser -> DVCUser;
  (* math/rand: a draw of rand.Float64, in the interval [0, 1) *)
  rand_Float64 : W -> Q * W }.

(** The [EventQueue] struct: the fields that the methods read or write. *)
Record EventQueue : Type := {
  options : DVCOptions;
  cfg : HTTPConfiguration;
  closed : bool;
  eventsFlushed : Z;
  eventsReported : Z }.

(** The state that the methods run on: the queue, the world of the
    collaborators and the log of the calls made on them. *)
Record Sys (W : Type) : Type := {
  queue : EventQueue;
  env : W;
  calls : list Call }.

(** ** A state monad over [Sys] *)

Definition M (W A : Type) : Type := Sys W -> A * Sys W.

Definition ret {W A : Type} (a : A) : M W A := fun s => (a, s).

Definition bind {W A B : Type} (m : M W A) (k : A -> M W B) : M W B :=
  fun s => let (a, s1) := m s in k a s1.

Declare Scope go_scope.
Delimit Scope go_scope with go.
Notation "x <- m ;; k" := (bind m (fun x => k))
  (at level 61, m at next level, right associativity) : go_scope.
Notation "m ;;; k" := (bind m (fun _ => k))
  (at level 61, right associativity) : go_scope.
Local Open Scope go_scope.

Definition get_queue {W : Type} : M W EventQueue := fun s => (queue s, s).

Definition modify_queue {W : Type} (f : EventQueue -> EventQueue) : M W unit :=
  fun s => (tt, {| queue := f (queue s); env := env s; calls := calls s |}).

(** A call on a collaborator: it is logged, then answered by the world. *)
Definition call {W A : Type} (c : Call) (op : W -> A * W) : M W A :=
  fun s => let (a, w) := op (env s) in
           (a, {| queue := queue s; env := w; calls := calls s ++ [c] |}).

Definition call_ {W : Type} (c : Call) (op : W -> W) : M W unit :=
  call c (fun w => (tt, op w)).

Definition set_closed (b : bool) (e : EventQueue) : EventQueue :=
  {| options := options e; cfg := cfg e; closed := b;
     eventsFlushed := eventsFlushed e; eventsReported := eventsReported e |}.

Definition add_eventsFlushed (delta : Z) (e : EventQueue) : EventQueue :=
  {| options := options e; cfg := cfg e; closed := closed e;
     eventsFlushed := int32_Add (eventsFlushed e) delta;
     eventsReported := eventsReported e |}.

Definition add_eventsReported (delta : Z) (e : EventQueue) : EventQueue :=
  {| options := options e; cfg := cfg e; closed := closed e;
     eventsFlushed := eventsFlushed e;
     eventsReported := int32_Add (eventsReported e) delta |}.

(** ** eventqueue.go *)

Section EventQueueMethods.

Context {W : Type} {C : Collaborators W}.

(** The three accumulators that [flushEventPayload] receives by pointer. *)
Record Accumulators : Type := {
  successes : slice string;
  failures : slice string;
  retryableFailures : slice string }.

Definition reportPayloadSuccess (payload : FlushPayload)
    (successPayloads : slice string) : M W (slice string) :=
  match successPayloads with
  | Some _ => ret (append successPayloads (PayloadId payload))
  | None =>
      _ <- call (Call_onPayloadSuccess (PayloadId payload))
                (lb_onPayloadSuccess (PayloadId payload)) ;;
      ret successPayloads
  end.

Definition reportPayloadFailure (payload : FlushPayload) (retry : bool)
    (failurePayloads retryableFailurePayloads : slice string)
    : M W (slice string * slice string) :=
  match failurePayloads with
  | Some _ =>
      if retry
      then ret (failurePayloads,
                append retryableFailurePayloads (PayloadId payload))
      else ret (append failurePayloads (PayloadId payload),
                retryableFailurePayloads)
  | None =>
      _ <- call (Call_onPayloadFailure (PayloadId payload) retry)
                (lb_onPayloadFailure (PayloadId payload) retry) ;;
      ret (failurePayloads, retryableFailurePayloads)
  end.

Definition report_success (payload : FlushPayload) (acc : Accumulators)
    : M W Accumulators :=
  s <- reportPayloadSuccess payload (successes acc) ;;
  ret {| successes := s; failures := failures acc;
         retryableFailures := retryableFailures acc |}.

Definition report_failure (payload : FlushPayload) (retry : bool)
    (acc : Accumulators) : M W Accumulators :=
  fr <- reportPayloadFailure payload retry (failures acc) (retryableFailures acc) ;;
  ret {| successes := successes acc; failures := fst fr;
         retryableFailures := snd fr |}.

Definition flushEventPayload (payload : FlushPayload) (acc : Accumulators)
    : M W Accumulators :=
  e <- get_queue ;;
  let eventsHost := EventsAPIBasePath (cfg e) in
  match json_Marshal_batch (Records payload) with
  | inl _ => report_failure payload false acc
  | inr requestBody =>
  match http_NewRequest "POST"%string
          (eventsHost ++ "/v1/events/batch")%string requestBody with
  | inl _ => report_failure payload false acc
  | inr req =>
  sdkKey <- (fun s => (lb_sdkKey (env s), s)) ;;
  let req := Header_Set req "Authorization"%string sdkKey in
  let req := Header_Set req "Content-Type"%string "application/json"%string in
  let req := Header_Set req "Accept"%string "application/json"%string in
  r <- call (Call_HTTPClient_Do req) (HTTPClient_Do req) ;;
  match r with
  | inl _ => report_failure payload false acc
  | inr resp =>
  match Body resp with
  | (_, Some _) => report_failure payload false acc
  | (responseBody, None) =>
      if StatusCode resp >=? 500 then report_failure payload true acc
      else if StatusCode resp >=? 400 then report_failure payload false acc
      else if StatusCode resp =? 201 then
        acc1 <- report_success payload acc ;;
        modify_queue (add_eventsReported 1) ;;;
        ret acc1
      else report_failure payload false acc
  end end end end.

(** The loop of [flushEventPayloads] over the payloads. *)
Fixpoint flushEventPayloads_loop (payloads : list FlushPayload)
    (acc : Accumulators) : M W Accumulators :=
  match payloads with
  | [] => ret acc
  | payload :: rest =>
      acc1 <- flushEventPayload payload acc ;;
      flushEventPayloads_loop rest acc1
  end.

Definition flushEventPayloads (payloads : list FlushPayload)
    : M W (FlushResult * option error) :=
  modify_queue (add_eventsFlushed (int32_of_len payloads)) ;;;
  acc <- flushEventPayloads_loop payloads
           {| successes := make_slice string; failures := make_slice string;
              retryableFailures := make_slice string |} ;;
  ret ({| SuccessPayloads := successes acc;
          FailurePayloads := failures acc;
          FailureWithRetryPayloads := retryableFailures acc |}, None).

(** Modelled from the spec: [BucketingPool.ProcessAll] is declared outside
    these files.  "applies operation to every pooled engine; a single
    member's failure does not abort processing of the others".  The error
    returned is the one of the first member that failed. *)
Fixpoint ProcessAll_loop (operation : nat -> M W (option error))
    (objects : list nat) : M W (option error) :=
  match objects with
  | [] => ret None
  | object :: rest =>
      err <- operation object ;;
      err' <- ProcessAll_loop operation rest ;;
      ret (match err with Some _ => err | None => err' end)
  end.

Definition ProcessAll (operationName : string)
    (operation : nat -> M W (option error)) : M W (option error) :=
  objects <- (fun s => (pool_objects (env s), s)) ;;
  ProcessAll_loop operation objects.

(** The closure that [FlushEvents] hands to [ProcessAll]. *)
Definition flush_object (object : nat) : M W (option error) :=
  r <- call (Call_object_FlushEvents object) (object_FlushEvents object) ;;
  match r with
  | inl err => ret (Some err)
  | inr payloads =>
      re <- flushEventPayloads payloads ;;
      call_ (Call_object_HandleFlushResults object (fst re))
            (object_HandleFlushResults object (fst re)) ;;;
      ret None
  end.

(** [FlushEvents] between [startFlushEvents] and the deferred
    [finishFlushEvents]. *)
Definition FlushEvents_body : M W (option error) :=
  r <- call Call_flushEventQueue lb_flushEventQueue ;;
  match r with
  | inl err => ret (Some err)
  | inr payloads =>
      modify_queue (add_eventsFlushed (int32_of_len payloads)) ;;;
      re <- flushEventPayloads payloads ;;
      match snd re with
      | Some err => ret (Some err)
      | None =>
          call_ (Call_HandleFlushResults (fst re))
                (lb_HandleFlushResults (fst re)) ;;;
          ProcessAll "FlushEvents"%string flush_object
      end
  end.

Definition FlushEvents : M W (option error) :=
  call_ Call_startFlushEvents lb_startFlushEvents ;;;
  err <- FlushEvents_body ;;
  call_ Call_finishFlushEvents lb_finishFlushEvents ;;;
  ret err.

Definition checkEventQueueSize : M W (bool * option error) :=
  e <- get_queue ;;
  r <- call Call_checkEventQueueSize lb_checkEventQueueSize ;;
  match r with
  | inl err => ret (false, Some err)
  | inr queueSize =>
      if queueSize >=? FlushEventQueueSize (options e) then
        err <- FlushEvents ;;
        match err with
        | Some _ => ret (true, err)
        | None =>
            if queueSize >=? MaxEventQueueSize (options e)
            then ret (true, None)
            else ret (false, None)
        end
      else ret (false, None)
  end.

Definition QueueEvent (user : DVCUser) (event : DVCEvent)
    : M W (option error) :=
  e <- get_queue ;;
  if closed e then ret (Some ErrClosed)
  else
    qe <- checkEventQueueSize ;;
    if negb (is_nil (snd qe)) || fst qe then ret (Some ErrQueueFull)
    else if negb (EnableCloudBucketing (options e)) then
      match json_Marshal_user user with
      | inl err => ret (Some err)
      | inr userstring =>
          match json_Marshal_event event with
          | inl err => ret (Some err)
          | inr eventstring =>
              call (Call_queueEvent userstring eventstring)
                   (lb_queueEvent userstring eventstring)
          end
      end
    else ret None.

(** The error of [json.Marshal] is overwritten by the engine's answer; on a
    marshalling error the bytes are nil, the empty string. *)
Definition QueueAggregateEvent (config : BucketedUserConfig) (event : DVCEvent)
    : M W (option error) :=
  e <- get_queue ;;
  qe <- checkEventQueueSize ;;
  if negb (is_nil (snd qe)) || fst qe then ret (Some ErrAggregateQueueFull)
  else if negb (EnableCloudBucketing (options e)) then
    let eventstring :=
      match json_Marshal_event event with
      | inl _ => EmptyString
      | inr s => s
      end in
    call (Call_queueAggregateEvent eventstring config)
         (lb_queueAggregateEvent eventstring config)
  else ret None.

Definition Metrics : M W (Z * Z) :=
  e <- get_queue ;;
  ret (eventsFlushed e, eventsReported e).

Definition Close : M W (option error) :=
  modify_queue (set_closed true) ;;;
  FlushEvents.

(** A caller's use of the queue, one method call after another. *)
Inductive Op : Type :=
| OpQueueEvent (user : DVCUser) (event : DVCEvent)
| OpQueueAggregateEvent (config : BucketedUserConfig) (event : DVCEvent)
| OpFlushEvents
| OpMetrics
| OpClose.

Definition run_op (o : Op) (s : Sys W) : Sys W :=
  match o with
  | OpQueueEvent user event => snd (QueueEvent user event s)
  | OpQueueAggregateEvent config event => snd (QueueAggregateEvent config event s)
  | OpFlushEvents => snd (FlushEvents s)
  | OpMetrics => snd (Metrics s)
  | OpClose => snd (Close s)
  end.

Definition run_ops (ops : list Op) (s : Sys W) : Sys W :=
  fold_left (fun s o => run_op o s) ops s.

End EventQueueMethods.

(** ** client.go *)

(** [exponentialBackoff(attempt)], with the draw of [rand.Float64] as an
    argument.  float64 values are read as the rationals they stand for:
    rounding and overflow of float64 are outside the model. *)
Definition exponentialBackoff (attempt : Z) (rnd : Q) : Q :=
  let delay := (Qpower 2 attempt * 100)%Q in
  let randomSum := (delay * (2 # 10) * rnd)%Q in
  (delay + randomSum)%Q.

(** The deterministic part of the delay, [delay] in the code. *)
Definition backoff_base (attempt : Z) : Q := (Qpower 2 attempt * 100)%Q.

(** Conversion of a float64 to an integer [time.Duration]: towards zero. *)
Definition Q_trunc (q : Q) : Z :=
  if Qle_bool 0 q then Qfloor q else Qceiling q.

(** The [DVCClient] struct, without the queue, which is in [Sys]. *)
Record DVCClient : Type := {
  DevCycleOptions : DVCOptions;
  client_cfg : HTTPConfiguration;
  sdkKey : string;
  isInitialized : bool }.

(** [github.com/matryer/try], a library outside the repository. *)
Definition MaxRetries : Z := 10.

Section ClientMethods.

Context {W : Type} {C : Collaborators W}.

(** [try.Do(fn)]: "retrying as long as the bool is true and err is not nil,
    the attempt param is auto-incremented".  The library starts at attempt 1
    and gives up with its own error once [attempt] exceeds [MaxRetries].
    [V] holds the variables that the closure [fn] captures and assigns. *)
Fixpoint try_Do_loop {V : Type} (fuel : nat)
    (fn : Z -> V -> M W ((bool * option error) * V)) (attempt : Z) (v : V)
    : M W (option error * V) :=
  r <- fn attempt v ;;
  let '((cont, err), v1) := r in
  if negb cont || is_nil err then ret (err, v1)
  else
    let attempt := attempt + 1 in
    if attempt >? MaxRetries then ret (Some ErrMaxRetriesReached, v1)
    else
      match fuel with
      | O => ret (Some ErrMaxRetriesReached, v1)
      | S fuel' => try_Do_loop fuel' fn attempt v1
      end.

Definition try_Do {V : Type}
    (fn : Z -> V -> M W ((bool * option error) * V)) (v : V)
    : M W (option error * V) :=
  try_Do_loop (Z.to_nat MaxRetries) fn 1 v.

Definition callAPI (request : Request) : M W (option Response * option error) :=
  r <- call (Call_HTTPClient_Do request) (HTTPClient_Do request) ;;
  ret (match r with
       | inl err => (None, Some err)
       | inr resp => (Some resp, None)
       end).

(** [time.Sleep(time.Duration(exponentialBackoff(attempt)) * time.Millisecond)]. *)
Definition sleep_backoff (attempt : Z) : M W unit :=
  fun s =>
    let (rnd, w) := rand_Float64 (env s) in
    (tt, {| queue := queue s; env := w;
            calls := calls s ++ [Call_Sleep (Q_trunc (exponentialBackoff attempt rnd))] |}).

Definition prepareRequest (c : DVCClient) (path method : string)
    (postBody : UserDataAndEventsBody) (headerParams : list (string * string))
    : result Request :=
  match setBody postBody "application/json"%string with
  | inl err => inl err
  | inr body =>
  match url_Parse path with
  | inl err => inl err
  | inr url =>
      let url := if EnableEdgeDB (DevCycleOptions c)
                 then (url ++ "?enableEdgeDB=true")%string else url in
      match http_NewRequest method url body with
      | inl err => inl err
      | inr req =>
          inr {| req_method := req_method req; req_url := req_url req;
                 req_body := req_body req; req_headers := headerParams |}
      end
  end end.

(** The closure that [performRequest] hands to [try.Do]; it assigns the
    captured [httpResponse] and [responseBody]. *)
Definition performRequest_fn (c : DVCClient) (path method : string)
    (postBody : UserDataAndEventsBody) (headerParams : list (string * string))
    (attempt : Z) (v : option Response * string)
    : M W ((bool * option error) * (option Response * string)) :=
  match prepareRequest c path method postBody headerParams with
  | inl err => ret ((false, Some err), v)
  | inr r =>
      re <- callAPI r ;;
      let httpResponse := fst re in
      match snd re, httpResponse with
      | Some err, _ =>
          sleep_backoff attempt ;;;
          ret ((attempt <=? 5, Some err), (httpResponse, snd v))
      | None, None =>
          sleep_backoff attempt ;;;
          ret ((attempt <=? 5, Some ErrNilResponse), (httpResponse, snd v))
      | None, Some resp =>
          let responseBody := fst (Body resp) in
          let err := snd (Body resp) in
          let err := if is_nil err && (StatusCode resp >=? 500) && (attempt <=? 5)
                     then Some Err5xx else err in
          (if is_nil err then ret tt else sleep_backoff attempt) ;;;
          ret ((attempt <=? 5, err), (httpResponse, responseBody))
      end
  end.

Definition performRequest (c : DVCClient) (path method : string)
    (postBody : UserDataAndEventsBody) (headerParams : list (string * string))
    : M W (option Response * string * option error) :=
  let headerParams :=
    headerParams ++ [("Content-Type", "application/json");
                     ("Accept", "application/json");
                     ("Authorization", sdkKey c)]%string in
  r <- try_Do (performRequest_fn c path method postBody headerParams)
              (None, EmptyString) ;;
  match fst r with
  | Some err => ret (None, EmptyString, Some err)
  | None => ret (fst (snd r), snd (snd r), None)
  end.

Definition handleError (r : Response) (body : string) : option error :=
  match (if (0 <? String.length body)%nat
         then decode_ErrorResponse body (ContentType r) else None) with
  | Some err => Some (ErrGeneric body (Error err))
  | None =>
      if StatusCode r >=? 500 then None
      else Some (ErrGeneric body (Status r))
  end.

Definition Track (c : DVCClient) (user : DVCUser) (event : DVCEvent)
    : M W (bool * option error) :=
  if DisableCustomEventLogging (DevCycleOptions c) then ret (true, None)
  else if String.eqb (Type_ event) EmptyString
  then ret (false, Some ErrEventTypeRequired)
  else if negb (EnableCloudBucketing (DevCycleOptions c)) then
    if isInitialized c then
      err <- QueueEvent user event ;;
      ret (is_nil err, err)
    else ret (true, None)
  else
    let populatedUser := getPopulatedUser user in
    let body := {| User := populatedUser; Events := [event] |} in
    let path := (BasePath (client_cfg c) ++ "/v1/track")%string in
    rr <- performRequest c path "POST"%string body [] ;;
    match rr with
    | (_, _, Some err) => ret (false, Some err)
    | (Some r, rBody, None) =>
        if StatusCode r <? 300 then
          match decode_nil rBody (ContentType r) with
          | None => ret (false, None)
          | Some _ => ret (true, None)
          end
        else ret (false, handleError r rBody)
    | (None, _, None) =>
        (* a nil response with a nil error: [performRequest] never gives it *)
        ret (false, Some ErrNilResponse)
    end.

End ClientMethods.

(** ** A mock of the collaborators

    A test double in the manner of the SDK's tests: an engine that reports a
    fixed size until it is drained and hands out the batches it was given,
    an endpoint that answers every request with one status (or refuses the
    connection), no pooled engines. *)

Record Mock : Type := {
  mock_size : Z;
  mock_pending : list FlushPayload;
  mock_status : Z;
  mock_connects : bool }.

Definition mock_drain (m : Mock) : Mock :=
  {| mock_size := 0; mock_pending := []; mock_status := mock_status m;
     mock_connects := mock_connects m |}.

Definition mock_enqueue (m : Mock) : Mock :=
  {| mock_size := mock_size m + 1; mock_pending := mock_pending m;
     mock_status := mock_status m; mock_connects := mock_connects m |}.

Definition mock_Do (m : Mock) : result Response :=
  if mock_connects m
  then inr {| StatusCode := mock_status m; Status := EmptyString;
              ContentType := "application/json"%string;
              Body := (EmptyString, None) |}
  else inl (ErrOther "connection refused"%string).

#[export] Instance MockCollaborators : Collaborators Mock := {|
  lb_sdkKey := fun _ => "server-key"%string;
  lb_queueEvent := fun _ _ m => (None, mock_enqueue m);
  lb_queueAggregateEvent := fun _ _ m => (None, mock_enqueue m);
  lb_checkEventQueueSize := fun m => (inr (mock_size m), m);
  lb_startFlushEvents := fun m => m;
  lb_finishFlushEvents := fun m => m;
  lb_flushEventQueue := fun m => (inr (mock_pending m), mock_drain m);
  lb_HandleFlushResults := fun _ m => m;
  lb_onPayloadSuccess := fun _ m => (None, m);
  lb_onPayloadFailure := fun _ _ m => (None, m);
  pool_objects := fun _ => [];
  object_FlushEvents := fun _ m => (inr [], m);
  object_HandleFlushResults := fun _ _ m => m;
  json_Marshal_user := fun u => inr (UserId u);
  json_Marshal_event := fun e => inr (Type_ e);
  json_Marshal_batch := fun records => inr (String.concat ","%string records);
  http_NewRequest := fun method url body =>
    inr {| req_method := method; req_url := url; req_body := body;
           req_headers := [] |};
  HTTPClient_Do := fun _ m => (mock_Do m, m);
  url_Parse := fun path => inr path;
  setBody := fun _ _ => inr EmptyString;
  decode_nil := fun _ _ => None;
  decode_ErrorResponse := fun _ _ => None;
  getPopulatedUser := fun u => u;
  rand_Float64 := fun m => (1 # 2, m)
|}.

Definition mock_options : DVCOptions :=
  {| EnableCloudBucketing := false; EnableEdgeDB := false;
     DisableAutomaticEventLogging := false; DisableCustomEventLogging := false;
     FlushEventQueueSize := 10; MaxEventQueueSize := 20 |}.

Definition mock_cfg : HTTPConfiguration :=
  {| BasePath := "https://bucketing-api.devcycle.com"%string;
     EventsAPIBasePath := "https://events.devcycle.com"%string |}.

Definition mock_payload (id : string) : FlushPayload :=
  {| PayloadId := id; Records := ["{}"%string] |}.

(** A queue with counters at zero over a mock world. *)
Definition mock_sys (is_closed : bool) (m : Mock) : Sys Mock :=
  {| queue := {| options := mock_options; cfg := mock_cfg; closed := is_closed;
                 eventsFlushed := 0; eventsReported := 0 |};
     env := m; calls := [] |}.

Definition mock_world (size : Z) (pending : list FlushPayload) (status : Z)
    (connects : bool) : Mock :=
  {| mock_size := size; mock_pending := pending; mock_status := status;
     mock_connects := connects |}.

(** A client over the mock: local or cloud bucketing, custom event logging
    on or off. *)
Definition mock_client (cloud disableCustom : bool) : DVCClient :=
  {| DevCycleOptions :=
       {| EnableCloudBucketing := cloud; EnableEdgeDB := false;
          DisableAutomaticEventLogging := false;
          DisableCustomEventLogging := disableCustom;
          FlushEventQueueSize := 10; MaxEventQueueSize := 20 |};
     client_cfg := mock_cfg;
     sdkKey := "server-key"%string;
     isInitialized := true |}.

Definition mock_body : UserDataAndEventsBody :=
  {| User := {| UserId := "u1" |};
     Events := [{| Type_ := "purchase"; Target := "item" |}] |}.

Definition sleep_call (c : Call) : bool :=
  match c with
  | Call_Sleep _ => true
  | _ => false
  end.

(** ** Vocabulary of the statements *)

(** Kinds of calls: the dispatch of a batch to the endpoint; those and the
    calls on a pooled engine; those and the calls by which the primary engine
    is drained and told the results. *)
Definition dispatch_call (c : Call) : bool :=
  match c with
  | Call_HTTPClient_Do _ => true
  | _ => false
  end.

(** The attempts that a log shows: the calls of the endpoint. *)
Definition attempts (l : list Call) : nat :=
  List.length (filter dispatch_call l).

Definition pool_call (c : Call) : bool :=
  match c with
  | Call_object_FlushEvents _ | Call_object_HandleFlushResults _ _ => true
  | _ => dispatch_call c
  end.

Definition flush_call (c : Call) : bool :=
  match c with
  | Call_startFlushEvents | Call_finishFlushEvents | Call_flushEventQueue
  | Call_HandleFlushResults _ => true
  | _ => pool_call c
  end.

(** Accumulators as [flushEventPayloads] supplies them: none is nil. *)
Definition non_nil (acc : Accumulators) : Prop :=
  successes acc <> None /\ failures acc <> None /\ retryableFailures acc <> None.

(** [frame P s s']: from [s] to [s'] the queue kept its options, its
    configuration and its [closed] flag, and the log grew by calls in [P]. *)
Definition frame {W : Type} (P : Call -> bool) (s s' : Sys W) : Prop :=
  options (queue s') = options (queue s) /\
  cfg (queue s') = cfg (queue s) /\
  closed (queue s') = closed (queue s) /\
  exists l, calls s' = calls s ++ l /\ forallb P l = true.

(** [keeps P m Q]: every run of [m] returns a value in [Q] and stays in the
    frame of [P]. *)
Definition keeps {W A : Type} (P : Call -> bool) (m : M W A) (Q : A -> Prop)
    : Prop :=
  forall s, Q (fst (m s)) /\ frame P s (snd (m s)).

(** The three outcomes of the dispatch of a batch. *)
Inductive Outcome : Type := Succeeded | FailedPermanent | FailedRetryable.

(** The classification rules as the specification lists them, in order:
    serialization, construction or transport failure is permanent; otherwise
    a status of 500 or more is retryable; otherwise a status in [400, 500)
    is permanent; otherwise 201 is a success; any other status is
    permanent. *)
Definition classify
    (serialization_failed construction_failed transport_failed : bool)
    (status : Z) : Outcome :=
  if serialization_failed || construction_failed || transport_failed
  then FailedPermanent
  else if status >=? 500 then FailedRetryable
  else if (400 <=? status) && (status <? 500) then FailedPermanent
  else if status =? 201 then Succeeded
  else FailedPermanent.

(** An outcome written into the accumulators. *)
Definition record_outcome (o : Outcome) (id : string) (acc : Accumulators)
    : Accumulators :=
  match o with
  | Succeeded =>
      {| successes := append (successes acc) id; failures := failures acc;
         retryableFailures := retryableFailures acc |}
  | FailedPermanent =>
      {| successes := successes acc; failures := append (failures acc) id;
         retryableFailures := retryableFailures acc |}
  | FailedRetryable =>
      {| successes := successes acc; failures := failures acc;
         retryableFailures := append (retryableFailures acc) id |}
  end.

(** How often a payload id occurs in the three sets together. *)
Definition occurrences (id : string) (S F R : list string) : nat :=
  (count_occ string_dec S id + count_occ string_dec F id
   + count_occ string_dec R id)%nat.

Definition acc_occurrences (id : string) (acc : Accumulators) : nat :=
  occurrences id (elems (successes acc)) (elems (failures acc))
              (elems (retryableFailures acc)).

(** What [flushEventPayloads] returns: no error, and in the three sets
    together each id as often as among the payloads. *)
Definition partitions (payloads : list FlushPayload)
    (re : FlushResult * option error) : Prop :=
  snd re = None /\
  forall id,
    occurrences id (elems (SuccessPayloads (fst re)))
                (elems (FailurePayloads (fst re)))
                (elems (FailureWithRetryPayloads (fst re))) =
    count_occ string_dec (map PayloadId payloads) id.

Section Dispatch.

Context {W : Type} {C : Collaborators W}.

(** What the collaborators answer when [payload] is dispatched in state [s]:
    the request that is built, if the batch serializes; the answer of the
    endpoint, if the request is built. *)
Definition batch_request (s : Sys W) (payload : FlushPayload)
    : option (result Request) :=
  match json_Marshal_batch (Records payload) with
  | inl _ => None
  | inr requestBody =>
      Some
        match http_NewRequest "POST"%string
                (EventsAPIBasePath (cfg (queue s)) ++ "/v1/events/batch")%string
                requestBody with
        | inl err => inl err
        | inr req =>
            inr (Header_Set
                   (Header_Set
                      (Header_Set req "Authorization"%string (lb_sdkKey (env s)))
                      "Content-Type"%string "application/json"%string)
                   "Accept"%string "application/json"%string)
        end
  end.

Definition batch_response (s : Sys W) (payload : FlushPayload)
    : option (result Response) :=
  match batch_request s payload with
  | Some (inr req) => Some (fst (HTTPClient_Do req (env s)))
  | _ => None
  end.

Definition serialization_failed (payload : FlushPayload) : bool :=
  match json_Marshal_batch (Records payload) with
  | inl _ => true
  | inr _ => false
  end.

Definition construction_failed (s : Sys W) (payload : FlushPayload) : bool :=
  match batch_request s payload with
  | Some (inl _) => true
  | _ => false
  end.

(** The request did not come back with a response read to its end:
    [Client.Do] gave an error, or reading the body of the response did. *)
Definition transport_failed (s : Sys W) (payload : FlushPayload) : bool :=
  match batch_response s payload with
  | Some (inl _) => true
  | Some (inr resp) => negb (is_nil (snd (Body resp)))
  | None => false
  end.

Definition response_status (s : Sys W) (payload : FlushPayload) : Z :=
  match batch_response s payload with
  | Some (inr resp) => StatusCode resp
  | _ => 0
  end.

(** The state once the request, if there is one, has been sent. *)
Definition after_dispatch (s : Sys W) (payload : FlushPayload) : Sys W :=
  match batch_request s payload with
  | Some (inr req) => snd (call (Call_HTTPClient_Do req) (HTTPClient_Do req) s)
  | _ => s
  end.

(** What [flushEventPayload] does with an outcome. *)
Definition report (o : Outcome) (payload : FlushPayload) (acc : Accumulators)
    : M W Accumulators :=
  match o with
  | Succeeded =>
      acc1 <- report_success payload acc ;;
      modify_queue (add_eventsReported 1) ;;;
      ret acc1
  | FailedPermanent => report_failure payload false acc
  | FailedRetryable => report_failure payload true acc
  end.

(** An endpoint that answers 201 to every batch, every batch being
    serialized and sent. *)
Definition accepts_every_batch : Prop :=
  (forall records, exists body, json_Marshal_batch records = inr body) /\
  (forall method url body, exists req, http_NewRequest method url body = inr req) /\
  (forall req w, exists resp,
      fst (HTTPClient_Do req w) = inr resp /\
      StatusCode resp = 201 /\ snd (Body resp) = None).

End Dispatch.

(** ** A scripted test double

    A second double of the collaborators, for runs in which something
    fails: the engine answers the size query and the drain with a fixed
    result (an error or a value), pooled engine [i] drains the [i]-th entry
    of a list, the endpoint gives its answers in the order of a list and
    refuses the connection once the list is used up, and the JSON encoder
    rejects a user without id and an event whose target is
    ["unmarshalable"]. *)

Record Stub : Type := {
  stub_size : result Z;
  stub_drain : result (list FlushPayload);
  stub_pool : list (result (list FlushPayload));
  stub_answers : list (result Response);
  stub_engine_error : option error }.

Definition stub_response (status : Z) : Response :=
  {| StatusCode := status; Status := EmptyString;
     ContentType := "application/json"%string;
     Body := ("{}"%string, None) |}.

Definition stub_Do (m : Stub) : result Response * Stub :=
  match stub_answers m with
  | [] => (inl (ErrOther "connection refused"%string), m)
  | answer :: rest =>
      (answer,
       {| stub_size := stub_size m; stub_drain := stub_drain m;
          stub_pool := stub_pool m; stub_answers := rest;
          stub_engine_error := stub_engine_error m |})
  end.

#[export] Instance StubCollaborators : Collaborators Stub := {|
  lb_sdkKey := fun _ => "server-key"%string;
  lb_queueEvent := fun _ _ m => (stub_engine_error m, m);
  lb_queueAggregateEvent := fun _ _ m => (stub_engine_error m, m);
  lb_checkEventQueueSize := fun m => (stub_size m, m);
  lb_startFlushEvents := fun m => m;
  lb_finishFlushEvents := fun m => m;
  lb_flushEventQueue := fun m => (stub_drain m, m);
  lb_HandleFlushResults := fun _ m => m;
  lb_onPayloadSuccess := fun _ m => (stub_engine_error m, m);
  lb_onPayloadFailure := fun _ _ m => (stub_engine_error m, m);
  pool_objects := fun m => seq 0 (List.length (stub_pool m));
  object_FlushEvents := fun object m => (nth object (stub_pool m) (inr []), m);
  object_HandleFlushResults := fun _ _ m => m;
  json_Marshal_user := fun u =>
    if String.eqb (UserId u) EmptyString
    then inl (ErrOther "json: unsupported value"%string)
    else inr (UserId u);
  json_Marshal_event := fun e =>
    if String.eqb (Target e) "unmarshalable"%string
    then inl (ErrOther "json: unsupported value"%string)
    else inr (Type_ e);
  json_Marshal_batch := fun records => inr (String.concat ","%string records);
  http_NewRequest := fun method url body =>
    inr {| req_method := method; req_url := url; req_body := body;
           req_headers := [] |};
  HTTPClient_Do := fun _ m => stub_Do m;
  url_Parse := fun path =>
    if String.prefix ":"%string path
    then inl (ErrOther "missing protocol scheme"%string)
    else inr path;
  setBody := fun _ _ => inr "{}"%string;
  decode_nil := fun _ _ => Some (ErrOther "json: Unmarshal(nil)"%string);
  decode_ErrorResponse := fun _ _ => None;
  getPopulatedUser := fun u => u;
  rand_Float64 := fun m => (0%Q, m)
|}.

Definition stub_world (size : result Z) (drain : result (list FlushPayload))
    (pool : list (result (list FlushPayload)))
    (answers : list (result Response)) (engine_error : option error) : Stub :=
  {| stub_size := size; stub_drain := drain; stub_pool := pool;
     stub_answers := answers; stub_engine_error := engine_error |}.

(** A queue with counters at zero over a scripted world. *)
Definition stub_sys (cloud is_closed : bool) (m : Stub) : Sys Stub :=
  {| queue := {| options :=
                   {| EnableCloudBucketing := cloud; EnableEdgeDB := false;
                      DisableAutomaticEventLogging := false;
                      DisableCustomEventLogging := false;
                      FlushEventQueueSize := 10; MaxEventQueueSize := 20 |};
                 cfg := mock_cfg; closed := is_closed;
                 eventsFlushed := 0; eventsReported := 0 |};
     env := m; calls := [] |}.

(** ** Further vocabulary *)

(** The calls that a flush makes between [startFlushEvents] and
    [finishFlushEvents]. *)
Definition inner_flush_call (c : Call) : bool :=
  match c with
  | Call_flushEventQueue | Call_HandleFlushResults _ => true
  | _ => pool_call c
  end.

(** The calls of [performRequest]: the endpoint and the timer. *)
Definition request_call (c : Call) : bool :=
  match c with
  | Call_HTTPClient_Do _ | Call_Sleep _ => true
  | _ => false
  end.

Definition in_int32 (z : Z) : Prop := - 2 ^ 31 <= z < 2 ^ 31.

(** The three accumulators, all nil: the immediate mode of reporting. *)
Definition nil_accumulators : Accumulators :=
  {| successes := None; failures := None; retryableFailures := None |}.

(** The engine call by which an outcome is reported in immediate mode. *)
Definition immediate_report (o : Outcome) (id : string) : Call :=
  match o with
  | Succeeded => Call_onPayloadSuccess id
  | FailedPermanent => Call_onPayloadFailure id false
  | FailedRetryable => Call_onPayloadFailure id true
  end.

(** A [FlushResult] with three empty, non-nil sets. *)
Definition empty_FlushResult : FlushResult :=
  {| SuccessPayloads := make_slice string;
     FailurePayloads := make_slice string;
     FailureWithRetryPayloads := make_slice string |}.

(** The time slept according to a log, in milliseconds. *)
Definition total_sleep (l : list Call) : Z :=
  fold_right (fun c acc => match c with
                           | Call_Sleep ms => ms + acc
                           | _ => acc
                           end) 0 l.

(** Every sleep of a log lasts between [lo] and [hi] milliseconds. *)
Definition sleeps_within (lo hi : Z) (l : list Call) : Prop :=
  forall ms, In (Call_Sleep ms) l -> lo <= ms <= hi.

(** ** client.go: keys, default values, [Variable] and the client's flush *)

Definition sdkKeyIsValid (key : string) : bool :=
  String.prefix "server" key || String.prefix "dvc_server" key.

(** The dynamic types that the type switches of the code tell apart; any
    other type goes by its name. *)
Inductive GoType : Type :=
| T_int | T_int8 | T_int16 | T_int32 | T_int64
| T_uint | T_uint8 | T_uint16 | T_uint32 | T_uint64
| T_float32 | T_float64
| T_string | T_bool | T_map_string_any
| T_other (name : string).

(** The data of a value; numbers are the rationals they stand for. *)
Inductive GoData : Type :=
| D_number (q : Q)
| D_string (s : string)
| D_bool (b : bool)
| D_opaque (repr : string).

(** An [interface{}]: nil, or a dynamic type with its data. *)
Definition any : Type := option (GoType * GoData).

(** [reflect.TypeOf]; the type of a nil interface is nil. *)
Definition TypeOf (value : any) : option GoType := option_map fst value.

Definition GoType_eqb (t1 t2 : GoType) : bool :=
  match t1, t2 with
  | T_int, T_int | T_int8, T_int8 | T_int16, T_int16 | T_int32, T_int32
  | T_int64, T_int64 | T_uint, T_uint | T_uint8, T_uint8
  | T_uint16, T_uint16 | T_uint32, T_uint32 | T_uint64, T_uint64
  | T_float32, T_float32 | T_float64, T_float64 | T_string, T_string
  | T_bool, T_bool | T_map_string_any, T_map_string_any => true
  | T_other n1, T_other n2 => String.eqb n1 n2
  | _, _ => false
  end.

Definition compareTypes (value1 value2 : any) : bool :=
  match TypeOf value1, TypeOf value2 with
  | None, None => true
  | Some t1, Some t2 => GoType_eqb t1 t2
  | _, _ => false
  end.


Definition convertDefaultValueType (value : any) : any :=
  match value with
  | Some ((T_int | T_int8 | T_int16 | T_int32 | T_int64
           | T_uint | T_uint8 | T_uint16 | T_uint32 | T_uint64
           | T_float32), d) => Some (T_float64, d)
  | _ => value
  end.

Definition variableTypeFromValue (key : string) (value : any)
    : string * option error :=
  match value with
  | Some (T_float64, _) => ("Number"%string, None)
  | Some (T_string, _) => ("String"%string, None)
  | Some (T_bool, _) => ("Boolean"%string, None)
  | Some (T_map_string_any, _) => ("JSON"%string, None)
  | _ =>
      (EmptyString,
       Some (ErrOther ("the default value for variable " ++ key
                       ++ " is not of type Boolean, Number, String, or JSON")%string))
  end.


(** [strings.Replace(s, old, new, -1)] for a non-empty [old]: the
    occurrences of [old] are replaced from left to right, without overlap.
    [skip] counts the characters of a matched occurrence still to pass. *)
Fixpoint strings_Replace_from (skip : nat) (old new s : string) : string :=
  match s with
  | EmptyString => EmptyString
  | String ch rest =>
      match skip with
      | S k => strings_Replace_from k old new rest
      | O =>
          if String.prefix old s
          then (new ++ strings_Replace_from (String.length old - 1) old new rest)%string
          else String ch (strings_Replace_from 0 old new rest)
      end
  end.

Definition strings_Replace (s old new : string) : string :=
  strings_Replace_from 0 old new s.

(** The [Variable] struct with its embedded [baseVariable] ([Variable] and
    [Type_] are taken: the names differ). *)
Record DVCVariable : Type := {
  Key : string;
  var_Type_ : string;
  Value : any;
  DefaultValue : any;
  IsDefaulted : bool }.

(** [Variable{}] and [BucketedUserConfig{}]. *)
Definition zero_Variable : DVCVariable :=
  {| Key := EmptyString; var_Type_ := EmptyString; Value := None;
     DefaultValue := None; IsDefaulted := false |}.

Definition zero_BucketedUserConfig : BucketedUserConfig :=
  {| ConfigBlob := EmptyString |}.

(** [m[key].Value] on a map from keys to variables: a missing key gives the
    zero variable, whose value is nil. *)
Fixpoint lookup_Value (variables : list (string * any)) (key : string) : any :=
  match variables with
  | [] => None
  | (k, v) :: rest => if String.eqb k key then v else lookup_Value rest key
  end.

(** What [Variable] needs beyond [Collaborators]: the config manager, the
    bucketing call of the engine, the fields of [BucketedUserConfig] (a type
    declared outside the two files: its map of variables, its user), the
    two event type constants, and the encoder and decoder of the generated
    client.  The zero config has no variables. *)
Class Bucketing (W : Type) : Type := {
  cm_hasConfig : W -> bool;
  lb_GenerateBucketedConfigForUser : string -> W -> result BucketedUserConfig * W;
  config_Variables : BucketedUserConfig -> list (string * any);
  config_set_user : DVCUser -> BucketedUserConfig -> BucketedUserConfig;
  EventType_AggVariableEvaluated : string;
  EventType_AggVariableDefaulted : string;
  setBody_user : DVCUser -> string -> result string;
  decode_Variable : string -> string -> result any;
  config_Variables_zero : config_Variables zero_BucketedUserConfig = [] }.

Section VariableMethods.

Context {W : Type} {C : Collaborators W} {B : Bucketing W}.

(** A call on a collaborator that the log does not record (the log is about
    the event queue, the endpoint and the timer). *)
Definition call_unlogged {A : Type} (op : W -> A * W) : M W A :=
  fun s => let (a, w) := op (env s) in
           (a, {| queue := queue s; env := w; calls := calls s |}).

Definition hasConfig : M W bool :=
  fun s => (cm_hasConfig (env s), s).

Definition generateBucketedConfig (user : DVCUser)
    : M W (BucketedUserConfig * option error) :=
  match json_Marshal_user user with
  | inl err => ret (zero_BucketedUserConfig, Some err)
  | inr userJSON =>
      r <- call_unlogged (lb_GenerateBucketedConfigForUser userJSON) ;;
      match r with
      | inl err => ret (zero_BucketedUserConfig, Some err)
      | inr config => ret (config_set_user user config, None)
      end
  end.

Definition queueEvent (user : DVCUser) (event : DVCEvent)
    : M W (option error) :=
  QueueEvent user event.

Definition queueAggregateEvent (bucketed : BucketedUserConfig)
    (event : DVCEvent) : M W (option error) :=
  QueueAggregateEvent bucketed event.

(** [prepareRequest] and [performRequest] for any body: [encoded] is what
    [setBody] gives for the body, [prepare] the preparation of the request
    from the header parameters. *)
Definition prepareRequest_body (c : DVCClient) (path method : string)
    (encoded : result string) (headerParams : list (string * string))
    : result Request :=
  match encoded with
  | inl err => inl err
  | inr body =>
  match url_Parse path with
  | inl err => inl err
  | inr url =>
      let url := if EnableEdgeDB (DevCycleOptions c)
                 then (url ++ "?enableEdgeDB=true")%string else url in
      match http_NewRequest method url body with
      | inl err => inl err
      | inr req =>
          inr {| req_method := req_method req; req_url := req_url req;
                 req_body := req_body req; req_headers := headerParams |}
      end
  end end.

Definition performRequest_fn_of (prepared : result Request)
    (attempt : Z) (v : option Response * string)
    : M W ((bool * option error) * (option Response * string)) :=
  match prepared with
  | inl err => ret ((false, Some err), v)
  | inr r =>
      re <- callAPI r ;;
      let httpResponse := fst re in
      match snd re, httpResponse with
      | Some err, _ =>
          sleep_backoff attempt ;;;
          ret ((attempt <=? 5, Some err), (httpResponse, snd v))
      | None, None =>
          sleep_backoff attempt ;;;
          ret ((attempt <=? 5, Some ErrNilResponse), (httpResponse, snd v))
      | None, Some resp =>
          let responseBody := fst (Body resp) in
          let err := snd (Body resp) in
          let err := if is_nil err && (StatusCode resp >=? 500) && (attempt <=? 5)
                     then Some Err5xx else err in
          (if is_nil err then ret tt else sleep_backoff attempt) ;;;
          ret ((attempt <=? 5, err), (httpResponse, responseBody))
      end
  end.

Definition performRequest_of (c : DVCClient)
    (prepare : list (string * string) -> result Request)
    (headerParams : list (string * string))
    : M W (option Response * string * option error) :=
  let headerParams :=
    headerParams ++ [("Content-Type", "application/json");
                     ("Accept", "application/json");
                     ("Authorization", sdkKey c)]%string in
  r <- try_Do (performRequest_fn_of (prepare headerParams))
              (None, EmptyString) ;;
  match fst r with
  | Some err => ret (None, EmptyString, Some err)
  | None => ret (fst (snd r), snd (snd r), None)
  end.

(** The variable that [Variable] starts from and returns when nothing
    better is found. *)
Definition default_variable (key variableType : string)
    (convertedDefaultValue : any) : DVCVariable :=
  {| Key := key; var_Type_ := variableType; Value := convertedDefaultValue;
     DefaultValue := convertedDefaultValue; IsDefaulted := true |}.

Definition with_value (variable : DVCVariable) (value : any) : DVCVariable :=
  {| Key := Key variable; var_Type_ := var_Type_ variable; Value := value;
     DefaultValue := DefaultValue variable; IsDefaulted := false |}.

Definition is_nil_any (value : any) : bool :=
  match value with None => true | Some _ => false end.

(** [Variable] of the client. *)
Definition Variable_ (c : DVCClient) (userdata : DVCUser) (key : string)
    (defaultValue : any) : M W (DVCVariable * option error) :=
  if String.eqb key EmptyString
  then ret (zero_Variable,
            Some (ErrOther "invalid key provided for call to Variable"%string))
  else
  let convertedDefaultValue := convertDefaultValueType defaultValue in
  match variableTypeFromValue key convertedDefaultValue with
  | (_, Some err) => ret (zero_Variable, Some err)
  | (variableType, None) =>
  let variable := default_variable key variableType convertedDefaultValue in
  if negb (EnableCloudBucketing (DevCycleOptions c)) then
    has <- hasConfig ;;
    if negb has then ret (variable, None)
    else
      be <- generateBucketedConfig userdata ;;
      let bucketed := fst be in
      let value := lookup_Value (config_Variables bucketed) key in
      let sameTypeAsDefault := compareTypes value convertedDefaultValue in
      let used := negb (is_nil_any value) && sameTypeAsDefault in
      let variable := if used then with_value variable value else variable in
      let variableEvaluationType :=
        if used then EventType_AggVariableEvaluated
        else EventType_AggVariableDefaulted in
      if negb (DisableAutomaticEventLogging (DevCycleOptions c)) then
        _ <- queueAggregateEvent bucketed
               {| Type_ := variableEvaluationType; Target := key |} ;;
        ret (variable, None)
      else ret (variable, snd be)
  else
    let populatedUser := getPopulatedUser userdata in
    let path := (BasePath (client_cfg c) ++ "/v1/variables/{key}")%string in
    let path := strings_Replace path "{key}" key in
    rr <- performRequest_of c
            (prepareRequest_body c path "POST"%string
               (setBody_user populatedUser "application/json"%string)) [] ;;
    match rr with
    | (_, _, Some err) => ret (variable, Some err)
    | (Some r, body, None) =>
        let decoded :=
          if StatusCode r <? 300
          then match decode_Variable body (ContentType r) with
               | inr (Some typed) => Some typed
               | _ => None
               end
          else None in
        match decoded with
        | Some typed =>
            if compareTypes (Some typed) convertedDefaultValue
            then ret (with_value variable (Some typed), None)
            else ret (variable, None)
        | None =>
            (* the body is decoded as an ErrorResponse and logged *)
            ret (variable, None)
        end
    | (None, _, None) =>
        (* a nil response with a nil error: [performRequest] never gives it *)
        ret (variable, Some ErrNilResponse)
    end
  end.


End VariableMethods.

(** ** A test double for [Variable]

    The scripted double, with a config manager that has a config or not and
    an engine whose bucketing gives a fixed result.  A bucketed config other
    than the zero config holds three variables: a boolean, a number and a
    string. *)

Record ClientStub : Type := {
  cs_engine : Stub;
  cs_hasConfig : bool;
  cs_bucketing : result BucketedUserConfig }.

Definition cs_lift {A : Type} (op : Stub -> A * Stub) (m : ClientStub)
    : A * ClientStub :=
  let (a, e) := op (cs_engine m) in
  (a, {| cs_engine := e; cs_hasConfig := cs_hasConfig m;
         cs_bucketing := cs_bucketing m |}).

Definition cs_lift_ (op : Stub -> Stub) (m : ClientStub) : ClientStub :=
  {| cs_engine := op (cs_engine m); cs_hasConfig := cs_hasConfig m;
     cs_bucketing := cs_bucketing m |}.

#[export] Instance ClientStubCollaborators : Collaborators ClientStub := {|
  lb_sdkKey := fun m => lb_sdkKey (cs_engine m);
  lb_queueEvent := fun u e => cs_lift (lb_queueEvent u e);
  lb_queueAggregateEvent := fun e c => cs_lift (lb_queueAggregateEvent e c);
  lb_checkEventQueueSize := cs_lift lb_checkEventQueueSize;
  lb_startFlushEvents := cs_lift_ lb_startFlushEvents;
  lb_finishFlushEvents := cs_lift_ lb_finishFlushEvents;
  lb_flushEventQueue := cs_lift lb_flushEventQueue;
  lb_HandleFlushResults := fun r => cs_lift_ (lb_HandleFlushResults r);
  lb_onPayloadSuccess := fun id => cs_lift (lb_onPayloadSuccess id);
  lb_onPayloadFailure := fun id retry => cs_lift (lb_onPayloadFailure id retry);
  pool_objects := fun m => pool_objects (cs_engine m);
  object_FlushEvents := fun o => cs_lift (object_FlushEvents o);
  object_HandleFlushResults := fun o r => cs_lift_ (object_HandleFlushResults o r);
  json_Marshal_user := json_Marshal_user (W := Stub);
  json_Marshal_event := json_Marshal_event (W := Stub);
  json_Marshal_batch := json_Marshal_batch (W := Stub);
  http_NewRequest := http_NewRequest (W := Stub);
  HTTPClient_Do := fun r => cs_lift (HTTPClient_Do r);
  url_Parse := url_Parse (W := Stub);
  setBody := setBody (W := Stub);
  decode_nil := decode_nil (W := Stub);
  decode_ErrorResponse := decode_ErrorResponse (W := Stub);
  getPopulatedUser := getPopulatedUser (W := Stub);
  rand_Float64 := cs_lift rand_Float64
|}.

Definition stub_Variables (config : BucketedUserConfig)
    : list (string * any) :=
  if String.eqb (ConfigBlob config) EmptyString then []
  else [("dark-mode"%string, Some (T_bool, D_bool true));
        ("max-items"%string, Some (T_float64, D_number 10));
        ("title"%string, Some (T_string, D_string (ConfigBlob config)))].

#[export] Instance ClientStubBucketing : Bucketing ClientStub := {|
  cm_hasConfig := cs_hasConfig;
  lb_GenerateBucketedConfigForUser := fun _ m => (cs_bucketing m, m);
  config_Variables := stub_Variables;
  config_set_user := fun _ config => config;
  EventType_AggVariableEvaluated := "aggVariableEvaluated"%string;
  EventType_AggVariableDefaulted := "aggVariableDefaulted"%string;
  setBody_user := fun _ _ => inr "{}"%string;
  decode_Variable := fun body _ =>
    if String.eqb body EmptyString
    then inl (ErrOther "unexpected end of JSON input"%string)
    else inr (Some (T_float64, D_number 7));
  config_Variables_zero := eq_refl
|}.

Definition client_stub (hasConfig_ : bool)
    (bucketing : result BucketedUserConfig) (engine : Stub) : ClientStub :=
  {| cs_engine := engine; cs_hasConfig := hasConfig_;
     cs_bucketing := bucketing |}.

Definition client_stub_sys (m : ClientStub) : Sys ClientStub :=
  {| queue := {| options := mock_options; cfg := mock_cfg; closed := false;
                 eventsFlushed := 0; eventsReported := 0 |};
     env := m; calls := [] |}.

(** ** A small program logic for flushes *)

Section FlushLogic.

Context {W : Type} {C : Collaborators W}.

Section Rules.

Variable P : Call -> bool.

Lemma frame_refl (s : Sys W) : frame P s s.
Proof.
  repeat split. exists []. now rewrite app_nil_r.
Qed.

Lemma frame_trans (s1 s2 s3 : Sys W) :
  frame P s1 s2 -> frame P s2 s3 -> frame P s1 s3.
Proof.
  intros (Ho & Hc & Hd & l & Hl & Hf) (Ho' & Hc' & Hd' & l' & Hl' & Hf').
  repeat split; try congruence.
  exists (l ++ l'). split.
  - now rewrite Hl', Hl, app_assoc.
  - rewrite forallb_app, Hf, Hf'. reflexivity.
Qed.

Lemma keeps_ret {A : Type} (a : A) (Q : A -> Prop) :
  Q a -> keeps (W := W) P (ret a) Q.
Proof.
  intros Ha s. split; [exact Ha | apply frame_refl].
Qed.

Lemma keeps_bind {A B : Type} (m : M W A) (k : A -> M W B)
    (Q1 : A -> Prop) (Q : B -> Prop) :
  keeps P m Q1 -> (forall a, Q1 a -> keeps P (k a) Q) -> keeps P (bind m k) Q.
Proof.
  intros Hm Hk s. unfold bind.
  specialize (Hm s). destruct (m s) as [a s1]. cbn in Hm.
  destruct Hm as [Ha Hf]. specialize (Hk a Ha s1).
  destruct Hk as [Hb Hf']. split; [exact Hb |].
  eapply frame_trans; eassumption.
Qed.

Lemma keeps_call {A : Type} (c : Call) (op : W -> A * W) :
  P c = true -> keeps P (call c op) (fun _ => True).
Proof.
  intros Hc s. unfold call. destruct (op (env s)) as [a w]. cbn.
  split; [exact I |]. repeat split.
  exists [c]. split; [reflexivity |]. cbn. now rewrite Hc.
Qed.

Lemma keeps_call_ (c : Call) (op : W -> W) :
  P c = true -> keeps P (call_ c op) (fun _ => True).
Proof.
  intros Hc. unfold call_. now apply keeps_call.
Qed.

Lemma keeps_read {A : Type} (f : Sys W -> A) :
  keeps P (fun s => (f s, s)) (fun _ => True).
Proof.
  intros s. split; [exact I | apply frame_refl].
Qed.

Lemma keeps_add_eventsFlushed (delta : Z) :
  keeps (W := W) P (modify_queue (add_eventsFlushed delta)) (fun _ => True).
Proof.
  intros s. split; [exact I |]. repeat split.
  exists []. cbn. now rewrite app_nil_r.
Qed.

Lemma keeps_add_eventsReported (delta : Z) :
  keeps (W := W) P (modify_queue (add_eventsReported delta)) (fun _ => True).
Proof.
  intros s. split; [exact I |]. repeat split.
  exists []. cbn. now rewrite app_nil_r.
Qed.

End Rules.

Lemma frame_mono (P P' : Call -> bool) (s s' : Sys W) :
  (forall c, P c = true -> P' c = true) -> frame P s s' -> frame P' s s'.
Proof.
  intros HP (Ho & Hc & Hd & l & Hl & Hf). repeat split; try assumption.
  exists l. split; [exact Hl |].
  rewrite forallb_forall in *. auto.
Qed.

Lemma keeps_mono {A : Type} (P P' : Call -> bool) (m : M W A)
    (Q Q' : A -> Prop) :
  (forall c, P c = true -> P' c = true) -> (forall a, Q a -> Q' a) ->
  keeps P m Q -> keeps P' m Q'.
Proof.
  intros HP HQ Hm s. destruct (Hm s) as [Ha Hf]. split; [auto |].
  eapply frame_mono; eassumption.
Qed.

Lemma dispatch_call_pool_call (c : Call) :
  dispatch_call c = true -> pool_call c = true.
Proof. destruct c; cbn; congruence. Qed.

Lemma pool_call_flush_call (c : Call) :
  pool_call c = true -> flush_call c = true.
Proof. destruct c; cbn; congruence. Qed.

(** In batched mode the reports are writes into the accumulators. *)
Lemma report_batched (o : Outcome) (payload : FlushPayload)
    (acc : Accumulators) (s : Sys W) :
  non_nil acc ->
  report o payload acc s =
  (record_outcome o (PayloadId payload) acc,
   match o with
   | Succeeded => {| queue := add_eventsReported 1 (queue s); env := env s;
                     calls := calls s |}
   | _ => s
   end).
Proof.
  intros (Hs & Hf & Hr).
  destruct acc as [[S |] [F |] [R |]]; cbn in Hs, Hf, Hr; try congruence.
  destruct o; reflexivity.
Qed.

Lemma non_nil_record_outcome (o : Outcome) (id : string) (acc : Accumulators) :
  non_nil acc -> non_nil (record_outcome o id acc).
Proof.
  intros (Hs & Hf & Hr).
  destruct o; repeat split; cbn; try assumption; discriminate.
Qed.

(** [flushEventPayload] is: dispatch, classify, report. *)
Lemma flushEventPayload_classify (payload : FlushPayload)
    (acc : Accumulators) (s : Sys W) :
  flushEventPayload payload acc s =
  report (classify (serialization_failed payload)
                   (construction_failed s payload)
                   (transport_failed s payload)
                   (response_status s payload))
         payload acc (after_dispatch s payload).
Proof.
  unfold flushEventPayload, classify, serialization_failed,
    construction_failed, transport_failed, response_status, after_dispatch,
    batch_response, batch_request, bind, get_queue.
  destruct (json_Marshal_batch (Records payload)) as [err | requestBody];
    [reflexivity |].
  destruct (http_NewRequest _ _ _) as [err | req]; [reflexivity |].
  unfold call.
  destruct (HTTPClient_Do _ (env s)) as [[err | resp] w]; [reflexivity |].
  cbn [fst snd orb negb is_nil].
  destruct (Body resp) as [responseBody [readError |]]; [reflexivity |].
  cbn [fst snd orb negb is_nil].
  destruct (Z.geb_spec (StatusCode resp) 500) as [H5 | H5]; [reflexivity |].
  destruct (Z.geb_spec (StatusCode resp) 400) as [H4 | H4].
  - destruct (Z.leb_spec 400 (StatusCode resp)); [| lia].
    destruct (Z.ltb_spec (StatusCode resp) 500); [| lia]. reflexivity.
  - destruct (Z.leb_spec 400 (StatusCode resp)); [lia |].
    cbn [andb]. destruct (StatusCode resp =? 201); reflexivity.
Qed.

Lemma frame_after_dispatch (s : Sys W) (payload : FlushPayload) :
  frame dispatch_call s (after_dispatch s payload).
Proof.
  unfold after_dispatch.
  destruct (batch_request s payload) as [[err | req] |];
    try apply frame_refl.
  pose proof (@keeps_call dispatch_call _ (Call_HTTPClient_Do req)
                (HTTPClient_Do req) eq_refl s) as [_ Hf].
  exact Hf.
Qed.

Lemma keeps_flushEventPayload (payload : FlushPayload) (acc : Accumulators) :
  non_nil acc ->
  keeps dispatch_call (flushEventPayload payload acc)
        (fun acc' => non_nil acc' /\
                     exists o, acc' = record_outcome o (PayloadId payload) acc).
Proof.
  intros Hacc s. rewrite flushEventPayload_classify.
  rewrite report_batched by exact Hacc. cbn [fst snd]. split.
  - split; [now apply non_nil_record_outcome | eexists; reflexivity].
  - eapply frame_trans; [apply frame_after_dispatch |].
    destruct (classify _ _ _ _); try apply frame_refl.
    repeat split. exists []. cbn. now rewrite app_nil_r.
Qed.

Lemma acc_occurrences_record_outcome (o : Outcome) (id id' : string)
    (acc : Accumulators) :
  acc_occurrences id (record_outcome o id' acc) =
  (acc_occurrences id acc + count_occ string_dec [id'] id)%nat.
Proof.
  unfold acc_occurrences, occurrences.
  destruct o; cbn [record_outcome successes failures retryableFailures
                   append elems];
    rewrite count_occ_app; lia.
Qed.

Lemma keeps_flushEventPayloads_loop (payloads : list FlushPayload) :
  forall acc, non_nil acc ->
    keeps dispatch_call (flushEventPayloads_loop payloads acc)
      (fun acc' =>
         non_nil acc' /\
         forall id, acc_occurrences id acc' =
                    (acc_occurrences id acc
                     + count_occ string_dec (map PayloadId payloads) id)%nat).
Proof.
  induction payloads as [| payload rest IH]; intros acc Hacc.
  - apply keeps_ret. split; [exact Hacc | intros id; cbn; lia].
  - cbn [flushEventPayloads_loop].
    eapply keeps_bind; [now apply keeps_flushEventPayload |].
    intros acc1 (Hacc1 & o & ->).
    eapply keeps_mono; [intros c Hc; exact Hc | | apply IH; exact Hacc1].
    intros acc' (Hacc' & Hocc). split; [exact Hacc' |].
    intros id. rewrite Hocc, acc_occurrences_record_outcome.
    change (map PayloadId (payload :: rest))
      with ([PayloadId payload] ++ map PayloadId rest).
    rewrite count_occ_app. lia.
Qed.

Lemma keeps_flushEventPayloads (payloads : list FlushPayload) :
  keeps dispatch_call (flushEventPayloads payloads) (partitions payloads).
Proof.
  unfold flushEventPayloads.
  eapply keeps_bind; [apply keeps_add_eventsFlushed | intros _ _].
  eapply keeps_bind.
  - apply keeps_flushEventPayloads_loop. repeat split; discriminate.
  - intros acc (_ & Hocc). apply keeps_ret. split; [reflexivity |].
    intros id. specialize (Hocc id). exact Hocc.
Qed.

Lemma keeps_flush_object (object : nat) :
  keeps pool_call (flush_object object) (fun _ => True).
Proof.
  unfold flush_object.
  eapply keeps_bind; [apply keeps_call; reflexivity | intros r _].
  destruct r as [err | payloads]; [now apply keeps_ret |].
  eapply keeps_bind.
  { eapply keeps_mono; [apply dispatch_call_pool_call | |
                        apply keeps_flushEventPayloads].
    intros re H. exact H. }
  intros re _.
  eapply keeps_bind; [apply keeps_call_; reflexivity | intros _ _].
  now apply keeps_ret.
Qed.

Lemma keeps_ProcessAll (operationName : string) :
  keeps pool_call (ProcessAll operationName flush_object) (fun _ => True).
Proof.
  unfold ProcessAll.
  eapply keeps_bind; [apply keeps_read | intros objects _].
  induction objects as [| object rest IH]; cbn [ProcessAll_loop].
  - now apply keeps_ret.
  - eapply keeps_bind; [apply keeps_flush_object | intros err _].
    eapply keeps_bind; [apply IH | intros err' _].
    now apply keeps_ret.
Qed.

Lemma keeps_FlushEvents_body : keeps flush_call FlushEvents_body (fun _ => True).
Proof.
  unfold FlushEvents_body.
  eapply keeps_bind; [apply keeps_call; reflexivity | intros r _].
  destruct r as [err | payloads]; [now apply keeps_ret |].
  eapply keeps_bind; [apply keeps_add_eventsFlushed | intros _ _].
  eapply keeps_bind.
  { eapply keeps_mono; [| | apply keeps_flushEventPayloads].
    - intros c Hc. now apply pool_call_flush_call, dispatch_call_pool_call.
    - intros re H. exact H. }
  intros re _.
  destruct (snd re); [now apply keeps_ret |].
  eapply keeps_bind; [apply keeps_call_; reflexivity | intros _ _].
  eapply keeps_mono; [apply pool_call_flush_call | | apply keeps_ProcessAll].
  auto.
Qed.

Lemma keeps_FlushEvents : keeps flush_call FlushEvents (fun _ => True).
Proof.
  unfold FlushEvents.
  eapply keeps_bind; [apply keeps_call_; reflexivity | intros _ _].
  eapply keeps_bind; [apply keeps_FlushEvents_body | intros err _].
  eapply keeps_bind; [apply keeps_call_; reflexivity | intros _ _].
  now apply keeps_ret.
Qed.

End FlushLogic.

(** ** The closed flag *)

Section Closed.

Context {W : Type} {C : Collaborators W}.

Lemma closed_FlushEvents (s : Sys W) :
  closed (queue (snd (FlushEvents s))) = closed (queue s).
Proof.
  destruct (keeps_FlushEvents s) as [_ (_ & _ & Hc & _)]. exact Hc.
Qed.

(** [checkEventQueueSize], one collaborator call at a time. *)
Lemma checkEventQueueSize_unfold (s : Sys W) :
  checkEventQueueSize s =
  let s0 := {| queue := queue s; env := snd (lb_checkEventQueueSize (env s));
               calls := calls s ++ [Call_checkEventQueueSize] |} in
  match fst (lb_checkEventQueueSize (env s)) with
  | inl err => ((false, Some err), s0)
  | inr queueSize =>
      if queueSize >=? FlushEventQueueSize (options (queue s)) then
        match fst (FlushEvents s0) with
        | Some err => ((true, Some err), snd (FlushEvents s0))
        | None =>
            ((queueSize >=? MaxEventQueueSize (options (queue s)), None),
             snd (FlushEvents s0))
        end
      else ((false, None), s0)
  end.
Proof.
  unfold checkEventQueueSize, bind, get_queue, call.
  destruct (lb_checkEventQueueSize (env s)) as [[err | queueSize] w];
    cbv beta iota zeta; unfold fst, snd; [reflexivity |].
  destruct (queueSize >=? FlushEventQueueSize _); [| reflexivity].
  destruct (FlushEvents _) as [[err |] s1]; [reflexivity |].
  destruct (queueSize >=? MaxEventQueueSize _); reflexivity.
Qed.

Lemma closed_checkEventQueueSize (s : Sys W) :
  closed (queue (snd (checkEventQueueSize s))) = closed (queue s).
Proof.
  rewrite checkEventQueueSize_unfold. cbv zeta.
  destruct (fst (lb_checkEventQueueSize (env s))) as [err | queueSize];
    [reflexivity |].
  destruct (queueSize >=? FlushEventQueueSize _); [| reflexivity].
  destruct (fst (FlushEvents _)); unfold snd at 1;
    now rewrite closed_FlushEvents.
Qed.

Lemma closed_QueueAggregateEvent (config : BucketedUserConfig)
    (event : DVCEvent) (s : Sys W) :
  closed (queue (snd (QueueAggregateEvent config event s))) = closed (queue s).
Proof.
  unfold QueueAggregateEvent, bind, get_queue.
  pose proof (closed_checkEventQueueSize s) as Hc.
  destruct (checkEventQueueSize s) as [[q err] s1]. cbn in *.
  destruct (negb (is_nil err) || q); [exact Hc |].
  destruct (negb _); [| exact Hc].
  unfold call. destruct (lb_queueAggregateEvent _ _ _). exact Hc.
Qed.

Lemma QueueEvent_closed (user : DVCUser) (event : DVCEvent) (s : Sys W) :
  closed (queue s) = true -> QueueEvent user event s = (Some ErrClosed, s).
Proof.
  intros Hc. unfold QueueEvent, bind, get_queue. now rewrite Hc.
Qed.

Lemma closed_Close (s : Sys W) : closed (queue (snd (Close s))) = true.
Proof.
  unfold Close, bind, modify_queue. cbv beta iota.
  now rewrite closed_FlushEvents.
Qed.

Lemma closed_run_op (o : Op) (s : Sys W) :
  closed (queue s) = true -> closed (queue (run_op o s)) = true.
Proof.
  intros Hc. destruct o; unfold run_op.
  - now rewrite QueueEvent_closed.
  - now rewrite closed_QueueAggregateEvent.
  - now rewrite closed_FlushEvents.
  - exact Hc.
  - apply closed_Close.
Qed.

Lemma closed_run_ops (ops : list Op) :
  forall s : Sys W,
    closed (queue s) = true -> closed (queue (run_ops ops s)) = true.
Proof.
  induction ops as [| o ops IH]; intros s Hc; cbn.
  - exact Hc.
  - apply IH. now apply closed_run_op.
Qed.


(** C2.  Once [Close] has been called on a queue, whatever the caller does
    with the queue afterwards, a call of [QueueEvent] returns the Closed
    error and leaves the queue, the engine and the log of engine calls as
    they were: the event does not reach the engine, [queueEvent] is not
    called. *)
Theorem QueueEvent_after_Close (s : Sys W) (ops : list Op) (user : DVCUser)
    (event : DVCEvent) :
  let s' := run_ops ops (snd (Close s)) in
  QueueEvent user event s' = (Some ErrClosed, s') /\
  calls (snd (QueueEvent user event s')) = calls s' /\
  env (snd (QueueEvent user event s')) = env s'.
Proof.
  intros s'.
  assert (H : QueueEvent user event s' = (Some ErrClosed, s')).
  { apply QueueEvent_closed. apply closed_run_ops. apply closed_Close. }
  rewrite H. repeat split.
Qed.

End Closed.

(** C3.  [QueueAggregateEvent] has no closed check.  On a closed queue over
    an engine that holds no event, it returns nil and the event is handed to
    the engine by [queueAggregateEvent], where [QueueEvent] on the same
    queue returns the Closed error. *)
Theorem QueueAggregateEvent_on_closed_queue_forwards :
  let s := mock_sys true (mock_world 0 [] 201 true) in
  let config := {| ConfigBlob := "cfg" |} in
  let event := {| Type_ := "aggVariableEvaluated"; Target := "var" |} in
  closed (queue s) = true /\
  fst (QueueAggregateEvent config event s) = None /\
  calls (snd (QueueAggregateEvent config event s)) =
    [Call_checkEventQueueSize;
     Call_queueAggregateEvent "aggVariableEvaluated" config] /\
  mock_size (env (snd (QueueAggregateEvent config event s))) = 1 /\
  fst (QueueEvent {| UserId := "u" |} event s) = Some ErrClosed.
Proof.
  cbv. repeat split.
Qed.

(** ** Backpressure: [checkEventQueueSize] *)

(** The claim of C7 fails as stated.  Soft threshold 10, hard cap 20, an
    engine holding 20 events that a flush drains entirely: the flush runs and
    succeeds, the count measured after it is 0, below the hard cap, and
    [checkEventQueueSize] still signals drop, because it compares the count
    it read before the flush. *)
Lemma checkEventQueueSize_drop_after_full_drain_counterexample :
  let s := mock_sys false (mock_world 20 [mock_payload "p1"] 201 true) in
  fst (checkEventQueueSize s) = (true, None) /\
  In Call_startFlushEvents (calls (snd (checkEventQueueSize s))) /\
  fst (lb_checkEventQueueSize (env (snd (checkEventQueueSize s)))) = inr 0 /\
  0 < MaxEventQueueSize (options (queue s)).
Proof.
  cbv. repeat split. right. left. reflexivity.
Qed.

Section QueueSize.

Context {W : Type} {C : Collaborators W}.

(** C7, amended.  [checkEventQueueSize] queries the engine's buffered count
    once.  When that count is at or above the soft threshold it triggers an
    immediate flush, and only then; when that flush succeeds it signals drop
    exactly when the count it measured before the flush is at or above the
    hard cap (the count is not measured again), and when the flush fails it
    signals drop with the flush's error. *)
Theorem checkEventQueueSize_compares_count_read_before_flush
    (s : Sys W) (queueSize : Z) (w : W) :
  lb_checkEventQueueSize (env s) = (inr queueSize, w) ->
  let s0 := {| queue := queue s; env := w;
               calls := calls s ++ [Call_checkEventQueueSize] |} in
  let r := checkEventQueueSize s in
  (exists l, calls (snd r) = calls s ++ Call_checkEventQueueSize :: l /\
             forallb flush_call l = true) /\
  (queueSize < FlushEventQueueSize (options (queue s)) ->
     r = ((false, None), s0)) /\
  (queueSize >= FlushEventQueueSize (options (queue s)) ->
     snd r = snd (FlushEvents s0) /\
     snd (fst r) = fst (FlushEvents s0) /\
     (fst (FlushEvents s0) = None ->
        (fst (fst r) = true <->
         queueSize >= MaxEventQueueSize (options (queue s)))) /\
     (fst (FlushEvents s0) <> None -> fst (fst r) = true)).
Proof.
  intros Hq s0 r. subst r. rewrite checkEventQueueSize_unfold, Hq.
  cbn [fst snd]. fold s0.
  destruct (Z.geb_spec queueSize (FlushEventQueueSize (options (queue s))))
    as [Hge | Hlt].
  - destruct (keeps_FlushEvents s0) as [_ (_ & _ & _ & l & Hl & Hf)].
    assert (Hcalls : exists l0,
      calls (snd (FlushEvents s0)) = calls s ++ Call_checkEventQueueSize :: l0
      /\ forallb flush_call l0 = true).
    { exists l. split; [| exact Hf]. rewrite Hl. unfold s0. cbn [calls].
      now rewrite <- app_assoc. }
    destruct (fst (FlushEvents s0)) as [err |] eqn:Eerr; cbn [fst snd].
    + split; [exact Hcalls |]. split; [lia |]. intros _.
      repeat split; try discriminate; try reflexivity.
    + split; [exact Hcalls |]. split; [lia |]. intros _.
      repeat split; try reflexivity.
      * intros Hd. apply Z.geb_le in Hd. lia.
      * intros Hd. apply Z.geb_le. lia.
      * congruence.
  - split.
    + exists []. split; reflexivity.
    + split; [reflexivity | lia].
Qed.

End QueueSize.

(** The soft threshold reached, the hard cap not: a flush, no drop. *)
Lemma checkEventQueueSize_compares_count_read_before_flush_witness :
  let s := mock_sys false (mock_world 12 [mock_payload "p1"] 201 true) in
  snd (checkEventQueueSize s) =
    snd (FlushEvents {| queue := queue s; env := env s;
                        calls := [Call_checkEventQueueSize] |}) /\
  fst (fst (checkEventQueueSize s)) <> true.
Proof.
  intros s.
  pose proof (checkEventQueueSize_compares_count_read_before_flush
                s (queueSize := 12) (w := env s) eq_refl) as H.
  cbv zeta in H. destruct H as (_ & _ & H).
  destruct H as (Hs & _ & H & _); [vm_compute; discriminate |].
  split; [exact Hs |].
  intros Hdrop. apply H in Hdrop; [| reflexivity].
  vm_compute in Hdrop. apply Hdrop. reflexivity.
Defined.

(** ** The dispatcher: classification and the three sets *)

Section Dispatcher.

Context {W : Type} {C : Collaborators W}.

(** C5.  [flushEventPayload] classifies the dispatch of a payload by the
    rules of the specification, applied in order ([classify]), and reports
    the outcome: a permanent failure as a failure without retry, a retryable
    failure as a failure with retry, a success as a success followed by an
    increment of the reported counter.  Transport failure covers an error of
    [Client.Do] and an error while the response body is read.  With
    accumulators that are not nil, the payload id is appended to the set of
    its outcome and the reported counter moves on a success only. *)
Theorem flushEventPayload_classification (payload : FlushPayload)
    (acc : Accumulators) (s : Sys W) :
  let o := classify (serialization_failed payload)
                    (construction_failed s payload)
                    (transport_failed s payload)
                    (response_status s payload) in
  flushEventPayload payload acc s =
    report o payload acc (after_dispatch s payload) /\
  (non_nil acc ->
   fst (flushEventPayload payload acc s) =
     record_outcome o (PayloadId payload) acc /\
   eventsReported (queue (snd (flushEventPayload payload acc s))) =
     match o with
     | Succeeded => int32_Add (eventsReported (queue s)) 1
     | _ => eventsReported (queue s)
     end).
Proof.
  intros o. split; [apply flushEventPayload_classify |].
  intros Hacc. rewrite flushEventPayload_classify. fold o.
  rewrite report_batched by exact Hacc. cbn [fst snd].
  split; [reflexivity |].
  assert (Hq : queue (after_dispatch s payload) = queue s).
  { unfold after_dispatch.
    destruct (batch_request s payload) as [[err | req] |]; try reflexivity.
    unfold call. now destruct (HTTPClient_Do req (env s)). }
  destruct o; cbn; now rewrite Hq.
Qed.

(** C4.  For payloads with distinct ids, whatever the collaborators answer,
    the result of [flushEventPayloads] has each payload id in exactly one of
    SuccessPayloads, FailurePayloads and FailureWithRetryPayloads, and has
    it there once. *)
Theorem flushEventPayloads_each_id_in_exactly_one_set
    (payloads : list FlushPayload) (s : Sys W) (id : string) :
  NoDup (map PayloadId payloads) ->
  In id (map PayloadId payloads) ->
  let result := fst (fst (flushEventPayloads payloads s)) in
  let succeeded := elems (SuccessPayloads result) in
  let failed := elems (FailurePayloads result) in
  let retried := elems (FailureWithRetryPayloads result) in
  occurrences id succeeded failed retried = 1%nat /\
  ((In id succeeded /\ ~ In id failed /\ ~ In id retried) \/
   (~ In id succeeded /\ In id failed /\ ~ In id retried) \/
   (~ In id succeeded /\ ~ In id failed /\ In id retried)).
Proof.
  intros Hnd Hin result succeeded failed retried.
  destruct (keeps_flushEventPayloads payloads s) as [[_ Hocc] _].
  specialize (Hocc id). fold result in Hocc.
  fold succeeded failed retried in Hocc.
  rewrite (NoDup_count_occ' string_dec) in Hnd.
  rewrite (Hnd id Hin) in Hocc. split; [exact Hocc |].
  unfold occurrences in Hocc.
  rewrite !(count_occ_not_In string_dec).
  rewrite !(count_occ_In string_dec).
  lia.
Qed.

End Dispatcher.

(** Two batches, each answered 503. *)
Lemma flushEventPayloads_each_id_in_exactly_one_set_witness :
  let payloads := [mock_payload "p1"; mock_payload "p2"] in
  let s := mock_sys false (mock_world 2 payloads 503 true) in
  let result := fst (fst (flushEventPayloads payloads s)) in
  occurrences "p2" (elems (SuccessPayloads result))
              (elems (FailurePayloads result))
              (elems (FailureWithRetryPayloads result)) = 1%nat.
Proof.
  intros payloads s result.
  refine (proj1 (flushEventPayloads_each_id_in_exactly_one_set
                   payloads s "p2" _ _)).
  - repeat constructor; cbn; intuition discriminate.
  - cbn. right. left. reflexivity.
Defined.

Lemma flushEventPayload_classification_witness :
  let acc := {| successes := Some []; failures := Some [];
                retryableFailures := Some [] |} in
  let s := mock_sys false (mock_world 1 [] 503 true) in
  fst (flushEventPayload (mock_payload "p1") acc s) =
    {| successes := Some []; failures := Some [];
       retryableFailures := Some ["p1"%string] |} /\
  eventsReported (queue (snd (flushEventPayload (mock_payload "p1") acc s))) = 0.
Proof.
  intros acc s.
  refine (proj2 (flushEventPayload_classification (mock_payload "p1") acc s) _).
  repeat split; discriminate.
Defined.

(** ** [FlushEvents]: how outcomes reach the primary engine, and the counters *)

Section Flush.

Context {W : Type} {C : Collaborators W}.

(** [FlushEvents] when the drain of the primary engine gives payloads. *)
Lemma FlushEvents_drained (s : Sys W) (payloads : list FlushPayload) (w : W) :
  lb_flushEventQueue (lb_startFlushEvents (env s)) = (inr payloads, w) ->
  let s1 := {| queue := add_eventsFlushed (int32_of_len payloads) (queue s);
               env := w;
               calls := (calls s ++ [Call_startFlushEvents])
                        ++ [Call_flushEventQueue] |} in
  let re := flushEventPayloads payloads s1 in
  let s2 := {| queue := queue (snd re);
               env := lb_HandleFlushResults (fst (fst re)) (env (snd re));
               calls := calls (snd re)
                        ++ [Call_HandleFlushResults (fst (fst re))] |} in
  let pe := ProcessAll "FlushEvents" flush_object s2 in
  FlushEvents s =
  (fst pe, {| queue := queue (snd pe);
              env := lb_finishFlushEvents (env (snd pe));
              calls := calls (snd pe) ++ [Call_finishFlushEvents] |}).
Proof.
  intros Hq s1. cbv zeta.
  assert (Herr : snd (fst (flushEventPayloads payloads s1)) = None)
    by apply (keeps_flushEventPayloads payloads s1).
  unfold FlushEvents, FlushEvents_body, bind, call_, call, modify_queue.
  cbn [env queue calls fst snd]. rewrite Hq. cbv beta iota.
  cbn [env queue calls]. fold s1.
  destruct (flushEventPayloads payloads s1) as [[result err] s'].
  cbn [fst snd] in *. subst err. cbv beta iota.
  destruct (ProcessAll _ _ _) as [err s3]. reflexivity.
Qed.

Lemma queue_after_dispatch (s : Sys W) (payload : FlushPayload) :
  queue (after_dispatch s payload) = queue s.
Proof.
  unfold after_dispatch.
  destruct (batch_request s payload) as [[err | req] |]; try reflexivity.
  unfold call. now destruct (HTTPClient_Do req (env s)).
Qed.

Lemma queue_flushEventPayload (payload : FlushPayload) (acc : Accumulators)
    (s : Sys W) :
  non_nil acc ->
  queue (snd (flushEventPayload payload acc s)) =
  match classify (serialization_failed payload) (construction_failed s payload)
                 (transport_failed s payload) (response_status s payload) with
  | Succeeded => add_eventsReported 1 (queue s)
  | _ => queue s
  end.
Proof.
  intros Hacc. rewrite flushEventPayload_classify.
  rewrite report_batched by exact Hacc. cbn [snd].
  destruct (classify _ _ _ _); cbn [queue]; now rewrite queue_after_dispatch.
Qed.

Lemma classify_accepted (s : Sys W) (payload : FlushPayload) :
  accepts_every_batch ->
  classify (serialization_failed payload) (construction_failed s payload)
           (transport_failed s payload) (response_status s payload)
  = Succeeded.
Proof.
  intros (Hm & Hn & Hd).
  unfold serialization_failed, construction_failed, transport_failed,
    response_status, batch_response, batch_request.
  destruct (Hm (Records payload)) as [body ->].
  match goal with
  | |- context [http_NewRequest ?m ?u ?b] => destruct (Hn m u b) as [req ->]
  end.
  match goal with
  | |- context [HTTPClient_Do ?r ?w] =>
      destruct (Hd r w) as (resp & -> & Hst & Hrd)
  end.
  rewrite Hrd, Hst. reflexivity.
Qed.

Lemma counters_flushEventPayloads_loop (payloads : list FlushPayload) :
  forall (acc : Accumulators) (s : Sys W),
    non_nil acc ->
    eventsFlushed (queue (snd (flushEventPayloads_loop payloads acc s))) =
      eventsFlushed (queue s) /\
    (accepts_every_batch ->
     eventsReported (queue (snd (flushEventPayloads_loop payloads acc s))) =
       Nat.iter (List.length payloads) (fun r => int32_Add r 1)
                (eventsReported (queue s))).
Proof.
  induction payloads as [| payload rest IH]; intros acc s Hacc.
  - split; reflexivity.
  - cbn [flushEventPayloads_loop]. unfold bind.
    pose proof (queue_flushEventPayload payload s Hacc) as Hq.
    destruct (keeps_flushEventPayload payload Hacc s) as [[Hacc1 _] _].
    destruct (flushEventPayload payload acc s) as [acc1 s1].
    cbn [fst snd] in *.
    destruct (IH acc1 s1 Hacc1) as [Hf Hr]. split.
    + rewrite Hf, Hq. now destruct (classify _ _ _ _).
    + intros Hall. rewrite (Hr Hall), Hq, classify_accepted by exact Hall.
      cbn [add_eventsReported eventsReported List.length].
      now rewrite Nat.iter_succ_r.
Qed.

(** The counters after a flush whose drain gives payloads, when no engine
    is pooled: the flushed counter has received the number of payloads
    twice; the reported counter has been incremented once per payload if the
    endpoint answers 201 to every batch. *)
Lemma FlushEvents_counters (s : Sys W) (payloads : list FlushPayload) (w : W) :
  lb_flushEventQueue (lb_startFlushEvents (env s)) = (inr payloads, w) ->
  (forall w', pool_objects w' = []) ->
  eventsFlushed (queue (snd (FlushEvents s))) =
    int32_Add (int32_Add (eventsFlushed (queue s)) (int32_of_len payloads))
              (int32_of_len payloads) /\
  (accepts_every_batch ->
   eventsReported (queue (snd (FlushEvents s))) =
     Nat.iter (List.length payloads) (fun r => int32_Add r 1)
              (eventsReported (queue s))).
Proof.
  intros Hq Hpool. rewrite (FlushEvents_drained s Hq). cbv zeta.
  cbn [snd queue]. unfold ProcessAll at 1 2, bind. rewrite !Hpool.
  cbn [ProcessAll_loop ret snd queue].
  unfold flushEventPayloads, bind, modify_queue. cbn [queue env calls].
  match goal with
  | |- context [flushEventPayloads_loop payloads ?acc ?s1] =>
      destruct (@counters_flushEventPayloads_loop payloads acc s1) as [Hf Hr];
      [repeat split; discriminate |];
      destruct (flushEventPayloads_loop payloads acc s1) as [acc' s']
  end.
  unfold ret. cbn [fst snd queue] in *. split.
  - rewrite Hf. reflexivity.
  - intros Hall. rewrite (Hr Hall). reflexivity.
Qed.


End Flush.


(** C1.  Two batches, both answered 201, no pooled engine: after
    [FlushEvents] the reported counter has increased by 2 and the flushed
    counter by 4, because [FlushEvents] adds the number of drained payloads
    and [flushEventPayloads] adds it again. *)
Theorem FlushEvents_counts_drained_payloads_twice :
  let payloads := [mock_payload "p1"; mock_payload "p2"] in
  let s := mock_sys false (mock_world 2 payloads 201 true) in
  fst (lb_flushEventQueue (lb_startFlushEvents (env s))) = inr payloads /\
  fst (FlushEvents s) = None /\
  fst (Metrics s) = (0, 0) /\
  fst (Metrics (snd (FlushEvents s))) = (4, 2).
Proof.
  vm_compute. repeat split.
Qed.

(** ** [exponentialBackoff] *)

Lemma backoff_base_pos (a : Z) : (0 < backoff_base a)%Q.
Proof.
  unfold backoff_base.
  assert (H : (0 < Qpower 2 a)%Q) by (apply Qpower_0_lt; reflexivity).
  nra.
Qed.




(** ** [performRequest] and [Track] *)

Section Client.

Context {W : Type} {C : Collaborators W}.

(** The closure of [performRequest] asks for another attempt whenever the
    attempt number is at most 5: also after the fifth attempt. *)
Lemma performRequest_fn_retry_flag (c : DVCClient) (path method : string)
    (postBody : UserDataAndEventsBody) (headerParams : list (string * string))
    (attempt : Z) (v : option Response * string) (s : Sys W) (req : Request) :
  prepareRequest c path method postBody headerParams = inr req ->
  fst (fst (fst (performRequest_fn c path method postBody headerParams
                                   attempt v s))) = (attempt <=? 5).
Proof.
  intros Hreq.
  unfold performRequest_fn, callAPI, bind, call, ret, sleep_backoff.
  rewrite Hreq.
  destruct (HTTPClient_Do req (env s)) as [[err | resp] w];
    cbn [fst snd env].
  - now destruct (rand_Float64 _).
  - destruct (is_nil _ && _ && _); cbn [is_nil].
    + now destruct (rand_Float64 _).
    + destruct (snd (Body resp)); cbn [is_nil]; [| reflexivity].
      now destruct (rand_Float64 _).
Qed.

(** A nil error from the closure comes with a response. *)
Lemma performRequest_fn_nil_error (c : DVCClient) (path method : string)
    (postBody : UserDataAndEventsBody) (headerParams : list (string * string))
    (attempt : Z) (v : option Response * string) (s : Sys W) :
  let r := fst (performRequest_fn c path method postBody headerParams
                                  attempt v s) in
  snd (fst r) = None -> fst (snd r) <> None.
Proof.
  unfold performRequest_fn, callAPI, bind, call, ret, sleep_backoff.
  destruct (prepareRequest c path method postBody headerParams)
    as [err | req]; [cbn; discriminate |].
  destruct (HTTPClient_Do req (env s)) as [[err | resp] w];
    cbn [fst snd env].
  - destruct (rand_Float64 _). cbn. discriminate.
  - destruct (is_nil _ && _ && _); cbn [is_nil].
    + destruct (rand_Float64 _). cbn. discriminate.
    + destruct (snd (Body resp)); cbn [is_nil].
      * destruct (rand_Float64 _). cbn. discriminate.
      * cbn. discriminate.
Qed.

Lemma try_Do_loop_nil_error {V : Type} (resp_of : V -> option Response)
    (fn : Z -> V -> M W ((bool * option error) * V)) :
  (forall attempt v s,
     snd (fst (fst (fn attempt v s))) = None ->
     resp_of (snd (fst (fn attempt v s))) <> None) ->
  forall fuel attempt v s,
    fst (fst (try_Do_loop fuel fn attempt v s)) = None ->
    resp_of (snd (fst (try_Do_loop fuel fn attempt v s))) <> None.
Proof.
  intros Hfn fuel. induction fuel as [| fuel IH]; intros attempt v s;
    cbn [try_Do_loop]; unfold bind;
    specialize (Hfn attempt v s);
    destruct (fn attempt v s) as [[[cont err] v1] s1]; cbn [fst snd] in *.
  - destruct (negb cont || is_nil err); [cbn; exact Hfn |].
    destruct (attempt + 1 >? MaxRetries); cbn; discriminate.
  - destruct (negb cont || is_nil err); [cbn; exact Hfn |].
    destruct (attempt + 1 >? MaxRetries); [cbn; discriminate |].
    apply IH.
Qed.

(** [performRequest] gives a response whenever it gives no error. *)
Lemma performRequest_nil_error_gives_response (c : DVCClient)
    (path method : string) (postBody : UserDataAndEventsBody)
    (headerParams : list (string * string)) (s : Sys W) :
  let r := fst (performRequest c path method postBody headerParams s) in
  snd r = None -> fst (fst r) <> None.
Proof.
  unfold performRequest, bind, try_Do.
  match goal with
  | |- context [try_Do_loop ?fuel ?fn ?a0 ?v0 s] =>
      pose proof (try_Do_loop_nil_error fst fn
                    (fun n x t => performRequest_fn_nil_error
                       c path method postBody _ n x t)
                    fuel a0 v0 s) as H;
      destruct (try_Do_loop fuel fn a0 v0 s) as [[err v1] s1]
  end.
  cbn [fst snd] in *. destruct err; cbn; [discriminate | exact H].
Qed.

(** The fuel of [try.Do] does not run out: from [MaxRetries - attempt] on,
    more fuel changes nothing. *)
Lemma try_Do_loop_fuel {V : Type}
    (fn : Z -> V -> M W ((bool * option error) * V)) :
  forall fuel fuel' attempt v s,
    MaxRetries - attempt <= Z.of_nat fuel ->
    MaxRetries - attempt <= Z.of_nat fuel' ->
    try_Do_loop fuel fn attempt v s = try_Do_loop fuel' fn attempt v s.
Proof.
  induction fuel as [| fuel IH]; intros fuel' attempt v s Hf Hf';
    destruct fuel' as [| fuel']; cbn [try_Do_loop]; unfold bind;
    destruct (fn attempt v s) as [[[cont err] v1] s1];
    destruct (negb cont || is_nil err); try reflexivity;
    destruct (Z.gtb_spec (attempt + 1) MaxRetries) as [Hmax | Hmax];
    try reflexivity; try lia.
  apply IH; lia.
Qed.

(** An attempt on a transport that fails: one call of the endpoint, one
    sleep, the error, and the retry flag [attempt <= 5]. *)
Lemma performRequest_fn_transport_failure (c : DVCClient) (path method : string)
    (postBody : UserDataAndEventsBody) (headerParams : list (string * string))
    (req : Request) :
  prepareRequest c path method postBody headerParams = inr req ->
  (forall r w, exists err, fst (HTTPClient_Do r w) = inl err) ->
  forall attempt v (s : Sys W),
  exists err v' s',
    performRequest_fn c path method postBody headerParams attempt v s =
      (((attempt <=? 5, Some err), v'), s') /\
    attempts (calls s') = S (attempts (calls s)).
Proof.
  intros Hreq Hfail attempt v s.
  unfold performRequest_fn, callAPI, bind, call, ret, sleep_backoff.
  rewrite Hreq. destruct (Hfail req (env s)) as [err Herr].
  destruct (HTTPClient_Do req (env s)) as [r w]. cbn [fst] in Herr. subst r.
  cbn [fst snd env queue calls]. destruct (rand_Float64 w) as [rnd w'].
  eexists _, _, _. split; [reflexivity |].
  unfold attempts. cbn [calls]. rewrite !filter_app, !length_app. cbn. lia.
Qed.

(** [try.Do] over a closure that fails at every attempt and asks for a retry
    up to attempt 5: the attempts from [attempt] to 6 are made. *)
Lemma try_Do_loop_failing_attempts {V : Type}
    (fn : Z -> V -> M W ((bool * option error) * V)) :
  (forall attempt v s, exists err v' s',
      fn attempt v s = (((attempt <=? 5, Some err), v'), s') /\
      attempts (calls s') = S (attempts (calls s))) ->
  forall fuel attempt v s,
    1 <= attempt <= 6 -> 6 - attempt <= Z.of_nat fuel ->
    attempts (calls (snd (try_Do_loop fuel fn attempt v s))) =
      (attempts (calls s) + Z.to_nat (7 - attempt))%nat /\
    fst (fst (try_Do_loop fuel fn attempt v s)) <> None.
Proof.
  intros Hfn fuel.
  induction fuel as [| fuel IH]; intros attempt v s Hrange Hfuel;
    cbn [try_Do_loop]; unfold bind;
    destruct (Hfn attempt v s) as (err & v1 & s1 & -> & Hatt);
    destruct (Z.leb_spec attempt 5) as [Hle | Hgt];
    cbn [negb orb is_nil fst snd]; unfold ret; cbn [fst snd].
  - lia.
  - split; [rewrite Hatt; lia | discriminate].
  - destruct (Z.gtb_spec (attempt + 1) MaxRetries) as [Hmax | Hmax];
      [unfold MaxRetries in Hmax; lia |].
    destruct (IH (attempt + 1) v1 s1) as [Ha He]; [lia | lia |].
    split; [rewrite Ha, Hatt; lia | exact He].
  - split; [rewrite Hatt; lia | discriminate].
Qed.

(** On a transport that fails at every call, [performRequest] makes six
    attempts and returns an error. *)
Lemma performRequest_six_attempts_on_failing_transport (c : DVCClient)
    (path method : string) (postBody : UserDataAndEventsBody)
    (headerParams : list (string * string)) (s : Sys W) :
  (forall hp, exists req, prepareRequest c path method postBody hp = inr req) ->
  (forall r w, exists err, fst (HTTPClient_Do r w) = inl err) ->
  let r := performRequest c path method postBody headerParams s in
  attempts (calls (snd r)) = (attempts (calls s) + 6)%nat /\
  snd (fst r) <> None.
Proof.
  intros Hprep Hfail. cbv zeta. unfold performRequest, bind, try_Do.
  match goal with
  | |- context [try_Do_loop ?fuel (performRequest_fn _ _ _ _ ?hp) ?a0 ?v0 s] =>
      destruct (Hprep hp) as [req Hreq];
      destruct (@try_Do_loop_failing_attempts _
                  (performRequest_fn c path method postBody hp)
                  (@performRequest_fn_transport_failure
                     c path method postBody hp req Hreq Hfail)
                  fuel a0 v0 s) as [Ha He];
        [lia | cbn; lia |];
      destruct (try_Do_loop fuel (performRequest_fn c path method postBody hp)
                            a0 v0 s) as [[err v1] s1]
  end.
  cbn [fst snd] in *. destruct err as [err |]; [| congruence].
  unfold ret. cbn [fst snd]. split; [exact Ha | discriminate].
Qed.

(** [try.Do] stops at an attempt that gives no error. *)
Lemma try_Do_loop_stops {V : Type}
    (fn : Z -> V -> M W ((bool * option error) * V)) (fuel : nat)
    (attempt : Z) (v v1 : V) (s s1 : Sys W) (cont : bool) :
  fn attempt v s = (((cont, None), v1), s1) ->
  try_Do_loop fuel fn attempt v s = ((None, v1), s1).
Proof.
  intros Hfn. destruct fuel; cbn [try_Do_loop]; unfold bind; rewrite Hfn;
    destruct cont; reflexivity.
Qed.

Lemma performRequest_fn_response_below_500 (c : DVCClient)
    (path method : string) (postBody : UserDataAndEventsBody)
    (headerParams : list (string * string)) (attempt : Z)
    (v : option Response * string) (s : Sys W) (req : Request)
    (resp : Response) (w : W) :
  prepareRequest c path method postBody headerParams = inr req ->
  HTTPClient_Do req (env s) = (inr resp, w) ->
  StatusCode resp < 500 ->
  snd (Body resp) = None ->
  performRequest_fn c path method postBody headerParams attempt v s =
  (((attempt <=? 5, None), (Some resp, fst (Body resp))),
   {| queue := queue s; env := w;
      calls := calls s ++ [Call_HTTPClient_Do req] |}).
Proof.
  intros Hreq Hdo Hst Hrd.
  unfold performRequest_fn, callAPI, bind, call, ret.
  rewrite Hreq, Hdo. cbn [fst snd]. rewrite Hrd.
  destruct (Z.geb_spec (StatusCode resp) 500) as [H5 | H5]; [lia |].
  reflexivity.
Qed.

(** A response below 500 whose body is read without error ends the first
    attempt that receives it: it is returned as it is, a 4xx included, and
    there is neither a sleep nor a second call. *)
Lemma performRequest_response_below_500_returned_at_once (c : DVCClient)
    (path method : string) (postBody : UserDataAndEventsBody)
    (headerParams : list (string * string)) (s : Sys W) (req : Request)
    (resp : Response) (w : W) :
  prepareRequest c path method postBody
    (headerParams ++ [("Content-Type", "application/json");
                      ("Accept", "application/json");
                      ("Authorization", sdkKey c)]%string) = inr req ->
  HTTPClient_Do req (env s) = (inr resp, w) ->
  StatusCode resp < 500 ->
  snd (Body resp) = None ->
  performRequest c path method postBody headerParams s =
  ((Some resp, fst (Body resp), None),
   {| queue := queue s; env := w;
      calls := calls s ++ [Call_HTTPClient_Do req] |}).
Proof.
  intros Hreq Hdo Hst Hrd. unfold performRequest, try_Do, bind.
  rewrite (try_Do_loop_stops _ _ _ _ _
             (performRequest_fn_response_below_500
                c path method postBody _ 1 _ s Hreq Hdo Hst Hrd)).
  reflexivity.
Qed.

(** C10.  With [DisableCustomEventLogging] set, [Track] returns
    [(true, nil)] at once, for every user and every event, an event without
    a type included: nothing is validated, the queue, the engine and the
    endpoint are left as they were, and no call is made on them. *)
Theorem Track_custom_event_logging_disabled (c : DVCClient) (user : DVCUser)
    (event : DVCEvent) (s : Sys W) :
  DisableCustomEventLogging (DevCycleOptions c) = true ->
  Track c user event s = ((true, None), s).
Proof.
  intros Hd. unfold Track. now rewrite Hd.
Qed.

End Client.

Lemma Track_custom_event_logging_disabled_witness :
  let s := mock_sys false (mock_world 0 [] 201 true) in
  Track (mock_client false true) {| UserId := "u1" |}
        {| Type_ := ""; Target := "" |} s = ((true, None), s).
Proof.
  intros s.
  apply (Track_custom_event_logging_disabled (mock_client false true)).
  reflexivity.
Defined.

(** C9.  An endpoint that refuses every connection: [performRequest] calls
    it six times, attempts 1 to 6, sleeping after each, before it returns
    the error.  An endpoint that answers 503 every time is called six times
    as well, and the sixth response is returned without an error.  The
    closure returns [attempt <= 5] to a library that counts attempts from 1;
    its comment reads "try 5 times". *)
Theorem performRequest_makes_six_attempts :
  let c := mock_client true false in
  let refused := mock_sys false (mock_world 0 [] 201 false) in
  let r := performRequest c "/v1/track" "POST" mock_body [] refused in
  let busy := mock_sys false (mock_world 0 [] 503 true) in
  let r' := performRequest c "/v1/track" "POST" mock_body [] busy in
  fst r = (None, EmptyString, Some (ErrOther "connection refused")) /\
  List.length (filter dispatch_call (calls (snd r))) = 6%nat /\
  filter sleep_call (calls (snd r)) =
    [Call_Sleep 220; Call_Sleep 440; Call_Sleep 880; Call_Sleep 1760;
     Call_Sleep 3520; Call_Sleep 7040] /\
  snd (fst r') = None /\
  option_map StatusCode (fst (fst (fst r'))) = Some 503 /\
  List.length (filter dispatch_call (calls (snd r'))) = 6%nat /\
  List.length (filter sleep_call (calls (snd r'))) = 5%nat.
Proof.
  vm_compute. repeat split.
Qed.


(** * Further properties of the code *)

(** ** [FlushEvents] *)

Section FlushMore.

Context {W : Type} {C : Collaborators W}.

Lemma flush_call_inner (c : Call) :
  pool_call c = true -> inner_flush_call c = true.
Proof. destruct c; cbn; congruence. Qed.

Lemma keeps_inner_FlushEvents_body :
  keeps inner_flush_call FlushEvents_body (fun _ => True).
Proof.
  unfold FlushEvents_body.
  eapply keeps_bind; [apply keeps_call; reflexivity | intros r _].
  destruct r as [err | payloads]; [now apply keeps_ret |].
  eapply keeps_bind; [apply keeps_add_eventsFlushed | intros _ _].
  eapply keeps_bind.
  { eapply keeps_mono; [| | apply keeps_flushEventPayloads].
    - intros c Hc. now apply flush_call_inner, dispatch_call_pool_call.
    - intros re H. exact H. }
  intros re _.
  destruct (snd re); [now apply keeps_ret |].
  eapply keeps_bind; [apply keeps_call_; reflexivity | intros _ _].
  eapply keeps_mono; [apply flush_call_inner | | apply keeps_ProcessAll].
  auto.
Qed.

(** X1.  Every run of [FlushEvents] is bracketed: [startFlushEvents] is its
    first call on a collaborator, the deferred [finishFlushEvents] its last,
    also when the drain fails, and neither is called in between. *)
Theorem FlushEvents_is_bracketed (s : Sys W) :
  exists l,
    calls (snd (FlushEvents s)) =
      calls s ++ Call_startFlushEvents :: l ++ [Call_finishFlushEvents] /\
    forallb inner_flush_call l = true /\
    ~ In Call_startFlushEvents l /\ ~ In Call_finishFlushEvents l.
Proof.
  unfold FlushEvents, bind, call_, call. cbn [fst snd env queue calls].
  match goal with
  | |- context [FlushEvents_body ?s0] =>
      destruct (keeps_inner_FlushEvents_body s0)
        as [_ (_ & _ & _ & l & Hl & Hf)];
      destruct (FlushEvents_body s0) as [err s1]
  end.
  unfold ret. cbn [fst snd env queue calls] in *. exists l.
  split; [rewrite Hl, <- !app_assoc; reflexivity |].
  split; [exact Hf |].
  rewrite forallb_forall in Hf.
  split; intros Hin; apply Hf in Hin; discriminate.
Qed.

Lemma FlushEvents_failed_drain (s : Sys W) (err : error) (w : W) :
  lb_flushEventQueue (lb_startFlushEvents (env s)) = (inl err, w) ->
  FlushEvents s =
  (Some err,
   {| queue := queue s; env := lb_finishFlushEvents w;
      calls := calls s ++ [Call_startFlushEvents; Call_flushEventQueue;
                           Call_finishFlushEvents] |}).
Proof.
  intros Hq.
  unfold FlushEvents, FlushEvents_body, bind, call_, call, ret.
  cbn [fst snd env queue calls]. rewrite Hq. cbn [fst snd env queue calls].
  now rewrite <- !app_assoc.
Qed.

(** X2.  When the drain of the primary engine fails, [FlushEvents] returns
    that error; it has called [startFlushEvents], [flushEventQueue] and
    [finishFlushEvents] and nothing else: no batch is dispatched, no result
    is reported, no pooled engine is flushed, and the counters are
    untouched. *)
Theorem FlushEvents_drain_failure (s : Sys W) (err : error) (w : W) :
  lb_flushEventQueue (lb_startFlushEvents (env s)) = (inl err, w) ->
  fst (FlushEvents s) = Some err /\
  queue (snd (FlushEvents s)) = queue s /\
  env (snd (FlushEvents s)) = lb_finishFlushEvents w /\
  calls (snd (FlushEvents s)) =
    calls s ++ [Call_startFlushEvents; Call_flushEventQueue;
                Call_finishFlushEvents].
Proof.
  intros Hq. rewrite (FlushEvents_failed_drain s Hq).
  repeat split.
Qed.

Lemma flush_object_nil (object : nat) (s : Sys W) :
  (forall o w, exists payloads, fst (object_FlushEvents o w) = inr payloads) ->
  fst (flush_object object s) = None.
Proof.
  intros Hpool. unfold flush_object, bind, call, call_, ret.
  destruct (Hpool object (env s)) as [payloads Hp].
  destruct (object_FlushEvents object (env s)) as [r w].
  cbn [fst] in Hp. subst r.
  destruct (flushEventPayloads payloads _) as [re s1]. reflexivity.
Qed.

Lemma ProcessAll_loop_nil (objects : list nat) :
  (forall o w, exists payloads, fst (object_FlushEvents o w) = inr payloads) ->
  forall s : Sys W, fst (ProcessAll_loop flush_object objects s) = None.
Proof.
  intros Hpool. induction objects as [| object rest IH]; intros s;
    cbn [ProcessAll_loop]; [reflexivity |].
  unfold bind. pose proof (flush_object_nil object s Hpool) as Ho.
  destruct (flush_object object s) as [err s1]. cbn [fst] in Ho. subst err.
  specialize (IH s1). destruct (ProcessAll_loop flush_object rest s1) as [e s2].
  cbn [fst] in IH. subst e. reflexivity.
Qed.

(** X3.  Delivery failures are not errors of [FlushEvents]: when the drain
    of the primary engine and the drains of the pooled engines succeed,
    [FlushEvents] returns nil, whatever the endpoint answers to the
    batches. *)
Theorem FlushEvents_returns_nil_when_drains_succeed (s : Sys W)
    (payloads : list FlushPayload) (w : W) :
  lb_flushEventQueue (lb_startFlushEvents (env s)) = (inr payloads, w) ->
  (forall o w', exists ps, fst (object_FlushEvents o w') = inr ps) ->
  fst (FlushEvents s) = None.
Proof.
  intros Hq Hpool. rewrite (FlushEvents_drained s Hq). cbv zeta.
  cbn [fst]. unfold ProcessAll, bind. cbv beta iota.
  apply ProcessAll_loop_nil. exact Hpool.
Qed.

(** X4.  A flush of an empty buffer, no engine being pooled: the endpoint is
    not called, the primary engine is handed a result with three empty sets,
    [FlushEvents] returns nil, the reported counter is unchanged and so is
    the flushed counter (it is an int32). *)
Theorem FlushEvents_empty_buffer (s : Sys W) (w : W) :
  lb_flushEventQueue (lb_startFlushEvents (env s)) = (inr [], w) ->
  (forall w', pool_objects w' = []) ->
  in_int32 (eventsFlushed (queue s)) ->
  fst (FlushEvents s) = None /\
  calls (snd (FlushEvents s)) =
    calls s ++ [Call_startFlushEvents; Call_flushEventQueue;
                Call_HandleFlushResults empty_FlushResult;
                Call_finishFlushEvents] /\
  eventsFlushed (queue (snd (FlushEvents s))) = eventsFlushed (queue s) /\
  eventsReported (queue (snd (FlushEvents s))) = eventsReported (queue s).
Proof.
  intros Hq Hpool Hrange. rewrite (FlushEvents_drained s Hq). cbv zeta.
  unfold ProcessAll, bind. rewrite !Hpool.
  unfold flushEventPayloads, bind, modify_queue, ret.
  cbn [flushEventPayloads_loop ProcessAll_loop ret fst snd queue env calls
       successes failures retryableFailures].
  unfold ret. cbn [fst snd queue env calls].
  split; [reflexivity |]. split; [now rewrite <- !app_assoc |].
  split; [| reflexivity].
  cbn [add_eventsFlushed eventsFlushed]. unfold int32_Add, int32_of_len.
  cbn [List.length Z.of_nat]. unfold in_int32 in Hrange.
  assert (Hw : forall z, - 2 ^ 31 <= z < 2 ^ 31 -> int32_wrap z = z).
  { intros z Hz. unfold int32_wrap. rewrite Z.mod_small; lia. }
  change (int32_wrap 0) with 0. rewrite !Z.add_0_r.
  rewrite (Hw _ Hrange). apply Hw. exact Hrange.
Qed.

End FlushMore.

Lemma FlushEvents_drain_failure_witness :
  let s := stub_sys false false
             (stub_world (inr 12) (inl (ErrOther "engine busy")) []
                         [inr (stub_response 201)] None) in
  fst (FlushEvents s) = Some (ErrOther "engine busy") /\
  queue (snd (FlushEvents s)) = queue s.
Proof.
  intros s.
  assert (Hq : lb_flushEventQueue (lb_startFlushEvents (env s)) =
               (inl (ErrOther "engine busy"), env s)) by reflexivity.
  destruct (FlushEvents_drain_failure s Hq) as (He & Hs & _).
  split; assumption.
Defined.

Lemma FlushEvents_returns_nil_when_drains_succeed_witness :
  fst (FlushEvents
         (mock_sys false
            (mock_world 2 [mock_payload "p1"; mock_payload "p2"] 503 true)))
  = None.
Proof.
  eapply FlushEvents_returns_nil_when_drains_succeed.
  - reflexivity.
  - intros o w'. eexists. reflexivity.
Defined.

Lemma FlushEvents_empty_buffer_witness :
  let s := mock_sys false (mock_world 0 [] 201 true) in
  fst (FlushEvents s) = None /\
  calls (snd (FlushEvents s)) =
    [Call_startFlushEvents; Call_flushEventQueue;
     Call_HandleFlushResults empty_FlushResult; Call_finishFlushEvents].
Proof.
  intros s.
  destruct (FlushEvents_empty_buffer s (w := mock_drain (env s)))
    as (He & Hc & _).
  - reflexivity.
  - intros w'. reflexivity.
  - split; vm_compute; [discriminate | reflexivity].
  - split; [exact He | exact Hc].
Defined.

(** ** [flushEventPayloads] and [flushEventPayload] *)

Section DispatcherMore.

Context {W : Type} {C : Collaborators W}.

Lemma flushEventPayload_batched_step (payload : FlushPayload)
    (acc : Accumulators) (s : Sys W) :
  non_nil acc ->
  let o := classify (serialization_failed payload)
                    (construction_failed s payload)
                    (transport_failed s payload)
                    (response_status s payload) in
  fst (flushEventPayload payload acc s) =
    record_outcome o (PayloadId payload) acc /\
  queue (snd (flushEventPayload payload acc s)) =
    match o with
    | Succeeded => add_eventsReported 1 (queue s)
    | _ => queue s
    end.
Proof.
  intros Hacc o. split.
  - rewrite flushEventPayload_classify. fold o.
    now rewrite report_batched by exact Hacc.
  - now apply queue_flushEventPayload.
Qed.

Lemma reported_flushEventPayloads_loop (payloads : list FlushPayload) :
  forall (acc : Accumulators) (s : Sys W),
    non_nil acc ->
    exists k,
      List.length (elems (successes
                            (fst (flushEventPayloads_loop payloads acc s)))) =
        (List.length (elems (successes acc)) + k)%nat /\
      eventsReported (queue (snd (flushEventPayloads_loop payloads acc s))) =
        Nat.iter k (fun n => int32_Add n 1) (eventsReported (queue s)).
Proof.
  induction payloads as [| payload rest IH]; intros acc s Hacc.
  - exists 0%nat. cbn. split; [lia | reflexivity].
  - cbn [flushEventPayloads_loop]. unfold bind.
    destruct (flushEventPayload_batched_step payload s Hacc) as [Ha Hq].
    destruct (flushEventPayload payload acc s) as [acc1 s1].
    cbn [fst snd] in *.
    assert (Hacc1 : non_nil acc1)
      by (subst acc1; now apply non_nil_record_outcome).
    destruct (IH acc1 s1 Hacc1) as (k & Hlen & Hrep).
    destruct (classify _ _ _ _); subst acc1; rewrite Hq in Hrep.
    + exists (S k). split.
      * rewrite Hlen. cbn [record_outcome successes append elems].
        rewrite length_app. cbn. lia.
      * rewrite Hrep. cbn [add_eventsReported eventsReported].
        now rewrite Nat.iter_succ_r.
    + exists k. split; [exact Hlen | exact Hrep].
    + exists k. split; [exact Hlen | exact Hrep].
Qed.

(** X5.  The reported counter counts the successes: over a run of
    [flushEventPayloads] it is incremented once for each id that the
    result holds in SuccessPayloads, and the flushed counter receives the
    number of payloads, whatever the outcomes. *)
Theorem flushEventPayloads_reported_counter_counts_successes
    (payloads : list FlushPayload) (s : Sys W) :
  let r := flushEventPayloads payloads s in
  eventsReported (queue (snd r)) =
    Nat.iter (List.length (elems (SuccessPayloads (fst (fst r)))))
             (fun n => int32_Add n 1) (eventsReported (queue s)) /\
  eventsFlushed (queue (snd r)) =
    int32_Add (eventsFlushed (queue s)) (int32_of_len payloads).
Proof.
  cbv zeta. unfold flushEventPayloads, bind, modify_queue, ret.
  match goal with
  | |- context [flushEventPayloads_loop payloads ?acc ?s1] =>
      assert (Hacc : non_nil acc) by (repeat split; discriminate);
      destruct (reported_flushEventPayloads_loop payloads s1 Hacc)
        as (k & Hlen & Hrep);
      destruct (counters_flushEventPayloads_loop payloads s1 Hacc)
        as [Hfl _];
      destruct (flushEventPayloads_loop payloads acc s1) as [acc' s']
  end.
  cbn [fst snd queue env calls successes elems List.length
       SuccessPayloads make_slice] in *.
  split.
  - rewrite Hlen. exact Hrep.
  - rewrite Hfl. reflexivity.
Qed.

(** X6.  Whatever the payloads (ids may repeat) and whatever the
    collaborators answer, the three sets of the result of
    [flushEventPayloads], put together, are a permutation of the drained
    payload ids: no id is lost, none is invented, and the sizes of the sets
    add up to the number of payloads. *)
Theorem flushEventPayloads_sets_permute_the_ids
    (payloads : list FlushPayload) (s : Sys W) :
  let result := fst (fst (flushEventPayloads payloads s)) in
  Permutation (elems (SuccessPayloads result)
               ++ elems (FailurePayloads result)
               ++ elems (FailureWithRetryPayloads result))
              (map PayloadId payloads) /\
  (List.length (elems (SuccessPayloads result))
   + List.length (elems (FailurePayloads result))
   + List.length (elems (FailureWithRetryPayloads result)))%nat =
  List.length payloads.
Proof.
  intros result.
  assert (HP : Permutation (elems (SuccessPayloads result)
                            ++ elems (FailurePayloads result)
                            ++ elems (FailureWithRetryPayloads result))
                           (map PayloadId payloads)).
  { apply (Permutation_count_occ string_dec). intros id.
    destruct (keeps_flushEventPayloads payloads s) as [[_ Hocc] _].
    specialize (Hocc id). fold result in Hocc. unfold occurrences in Hocc.
    rewrite !count_occ_app. lia. }
  split; [exact HP |].
  apply Permutation_length in HP.
  rewrite !length_app, length_map in HP. lia.
Qed.

(** X7.  Immediate mode.  With nil accumulators [flushEventPayload] leaves
    them nil and reports the outcome of the dispatch to the primary engine
    by one call: [onPayloadSuccess] for a success, [onPayloadFailure] with
    the retry flag set for a retryable failure and cleared for a permanent
    one.  An error that the engine answers is not passed on, and the
    reported counter moves on a success as in batched mode. *)
Theorem flushEventPayload_immediate_mode (payload : FlushPayload) (s : Sys W) :
  let o := classify (serialization_failed payload)
                    (construction_failed s payload)
                    (transport_failed s payload)
                    (response_status s payload) in
  let r := flushEventPayload payload nil_accumulators s in
  fst r = nil_accumulators /\
  calls (snd r) =
    calls (after_dispatch s payload)
    ++ [immediate_report o (PayloadId payload)] /\
  eventsReported (queue (snd r)) =
    match o with
    | Succeeded => int32_Add (eventsReported (queue s)) 1
    | _ => eventsReported (queue s)
    end.
Proof.
  intros o r. subst r. rewrite flushEventPayload_classify. fold o.
  pose proof (queue_after_dispatch s payload) as Hq.
  unfold report, report_success, report_failure, reportPayloadSuccess,
    reportPayloadFailure, nil_accumulators, bind, call, ret, modify_queue.
  cbn [successes failures retryableFailures].
  destruct o; cbn [immediate_report].
  - destruct (lb_onPayloadSuccess _ _) as [e w]. cbn. now rewrite Hq.
  - destruct (lb_onPayloadFailure _ _ _) as [e w]. cbn. now rewrite Hq.
  - destruct (lb_onPayloadFailure _ _ _) as [e w]. cbn. now rewrite Hq.
Qed.

End DispatcherMore.

(** ** [QueueEvent], [QueueAggregateEvent] and [Close] *)

Section QueueMore.

Context {W : Type} {C : Collaborators W}.

Lemma checkEventQueueSize_calls (s : Sys W) :
  exists l,
    calls (snd (checkEventQueueSize s)) =
      calls s ++ Call_checkEventQueueSize :: l /\
    forallb flush_call l = true.
Proof.
  rewrite checkEventQueueSize_unfold. cbv zeta.
  destruct (fst (lb_checkEventQueueSize (env s))) as [err | queueSize].
  - exists []. split; reflexivity.
  - destruct (queueSize >=? FlushEventQueueSize _).
    + match goal with
      | |- context [FlushEvents ?s0] =>
          destruct (keeps_FlushEvents s0) as [_ (_ & _ & _ & l & Hl & Hf)];
          exists l; split; [| exact Hf];
          destruct (fst (FlushEvents s0)); cbn [snd];
          rewrite Hl; cbn [calls]; now rewrite <- app_assoc
      end.
    + exists []. split; reflexivity.
Qed.

(** X8.  What [QueueEvent] calls.  On a closed queue, nothing.  Otherwise
    the size query, then the calls of a flush if the query triggers one,
    then at most one [queueEvent], as the last call; [queueEvent] is given
    the JSON of the user and of the event, and is called neither in cloud
    bucketing mode nor when one of the two cannot be marshalled. *)
Theorem QueueEvent_call_discipline (user : DVCUser) (event : DVCEvent)
    (s : Sys W) :
  exists lf tail,
    calls (snd (QueueEvent user event s)) =
      calls s
      ++ (if closed (queue s) then [] else Call_checkEventQueueSize :: lf)
      ++ tail /\
    forallb flush_call lf = true /\
    (tail = [] \/
     exists u e,
       tail = [Call_queueEvent u e] /\
       json_Marshal_user user = inr u /\
       json_Marshal_event event = inr e /\
       closed (queue s) = false /\
       EnableCloudBucketing (options (queue s)) = false).
Proof.
  unfold QueueEvent, bind, get_queue.
  destruct (closed (queue s)) eqn:Hclosed.
  - exists [], []. cbn. rewrite app_nil_r. auto.
  - destruct (checkEventQueueSize_calls s) as (lf & Hl & Hf).
    destruct (checkEventQueueSize s) as [[q err] s1]. cbn [fst snd] in *.
    exists lf.
    destruct (negb (is_nil err) || q).
    { exists []. cbn [ret snd]. rewrite app_nil_r. auto. }
    destruct (EnableCloudBucketing (options (queue s))) eqn:Hcloud;
      cbn [negb].
    { exists []. cbn [ret snd]. rewrite app_nil_r. auto. }
    destruct (json_Marshal_user user) as [e1 | u].
    { exists []. cbn [ret snd]. rewrite app_nil_r. auto. }
    destruct (json_Marshal_event event) as [e2 | e].
    { exists []. cbn [ret snd]. rewrite app_nil_r. auto. }
    exists [Call_queueEvent u e]. unfold call.
    destruct (lb_queueEvent u e (env s1)) as [a w]. cbn [snd calls].
    split; [now rewrite Hl, <- app_assoc |].
    split; [exact Hf |]. right. exists u, e. auto.
Qed.

(** X9.  When the engine answers the size query with an error,
    [QueueEvent] on an open queue returns the queue-full error in its place
    and drops the event: no flush is triggered and [queueEvent] is not
    called. *)
Theorem QueueEvent_size_query_error (user : DVCUser) (event : DVCEvent)
    (s : Sys W) (err : error) (w : W) :
  closed (queue s) = false ->
  lb_checkEventQueueSize (env s) = (inl err, w) ->
  QueueEvent user event s =
  (Some ErrQueueFull,
   {| queue := queue s; env := w;
      calls := calls s ++ [Call_checkEventQueueSize] |}).
Proof.
  intros Hclosed Hq. unfold QueueEvent, bind, get_queue. rewrite Hclosed.
  rewrite checkEventQueueSize_unfold, Hq. reflexivity.
Qed.

(** X10.  [QueueAggregateEvent] does not look at the error of
    [json.Marshal]: when the event cannot be marshalled and the buffer is
    below the soft threshold, the engine is still called, with the empty
    string for the event, and its answer is what is returned. *)
Theorem QueueAggregateEvent_ignores_marshal_error
    (config : BucketedUserConfig) (event : DVCEvent) (s : Sys W)
    (queueSize : Z) (w : W) (err : error) :
  lb_checkEventQueueSize (env s) = (inr queueSize, w) ->
  queueSize < FlushEventQueueSize (options (queue s)) ->
  EnableCloudBucketing (options (queue s)) = false ->
  json_Marshal_event event = inl err ->
  QueueAggregateEvent config event s =
  (fst (lb_queueAggregateEvent EmptyString config w),
   {| queue := queue s;
      env := snd (lb_queueAggregateEvent EmptyString config w);
      calls := calls s ++ [Call_checkEventQueueSize;
                           Call_queueAggregateEvent EmptyString config] |}).
Proof.
  intros Hq Hlt Hcloud Hm. unfold QueueAggregateEvent, bind, get_queue.
  rewrite checkEventQueueSize_unfold, Hq. cbn [fst snd].
  destruct (Z.geb_spec queueSize (FlushEventQueueSize (options (queue s))));
    [lia |].
  cbn [fst snd is_nil negb orb]. rewrite Hcloud, Hm. cbn [negb].
  unfold call. cbn [env queue calls].
  destruct (lb_queueAggregateEvent EmptyString config w) as [a w'].
  cbn [fst snd]. now rewrite <- app_assoc.
Qed.

(** X11.  What [QueueAggregateEvent] calls: the size query, the calls of a
    flush if the query triggers one, then at most one [queueAggregateEvent],
    as the last call, with the bucketed config it was given; never in cloud
    bucketing mode, and never [queueEvent]. *)
Theorem QueueAggregateEvent_call_discipline (config : BucketedUserConfig)
    (event : DVCEvent) (s : Sys W) :
  exists lf tail,
    calls (snd (QueueAggregateEvent config event s)) =
      calls s ++ Call_checkEventQueueSize :: lf ++ tail /\
    forallb flush_call lf = true /\
    (tail = [] \/
     exists e,
       tail = [Call_queueAggregateEvent e config] /\
       EnableCloudBucketing (options (queue s)) = false).
Proof.
  unfold QueueAggregateEvent, bind, get_queue.
  destruct (checkEventQueueSize_calls s) as (lf & Hl & Hf).
  destruct (checkEventQueueSize s) as [[q err] s1]. cbn [fst snd] in *.
  exists lf.
  destruct (negb (is_nil err) || q).
  { exists []. cbn [ret snd]. rewrite app_nil_r. auto. }
  destruct (EnableCloudBucketing (options (queue s))) eqn:Hcloud; cbn [negb].
  { exists []. cbn [ret snd]. rewrite app_nil_r. auto. }
  match goal with
  | |- context [Call_queueAggregateEvent ?e config] =>
      exists [Call_queueAggregateEvent e config]; unfold call;
      destruct (lb_queueAggregateEvent e config (env s1)) as [a w];
      cbn [snd calls];
      split; [now rewrite Hl, <- app_assoc |];
      split; [exact Hf |]; right; exists e; auto
  end.
Qed.

(** X12.  [Close] marks the queue closed before its final flush: when the
    drain of that flush fails, [Close] returns the error of the drain, the
    queue is closed all the same, and a [QueueEvent] that follows returns
    the Closed error. *)
Theorem Close_with_failing_final_flush (s : Sys W) (err : error) (w : W)
    (user : DVCUser) (event : DVCEvent) :
  lb_flushEventQueue (lb_startFlushEvents (env s)) = (inl err, w) ->
  fst (Close s) = Some err /\
  closed (queue (snd (Close s))) = true /\
  fst (QueueEvent user event (snd (Close s))) = Some ErrClosed.
Proof.
  intros Hq.
  assert (Hc : closed (queue (snd (Close s))) = true) by apply closed_Close.
  split; [| split; [exact Hc | now rewrite QueueEvent_closed]].
  unfold Close, bind, modify_queue. cbv beta iota.
  match goal with
  | |- fst (FlushEvents ?s0) = _ =>
      rewrite (@FlushEvents_failed_drain _ _ s0 err w Hq)
  end.
  reflexivity.
Qed.

End QueueMore.

Lemma QueueEvent_size_query_error_witness :
  let s := stub_sys false false
             (stub_world (inl (ErrOther "engine stopped")) (inr []) [] [] None) in
  fst (QueueEvent {| UserId := "u1" |}
                  {| Type_ := "purchase"; Target := "item" |} s)
  = Some ErrQueueFull.
Proof.
  intros s.
  assert (Hq : lb_checkEventQueueSize (env s) =
               (inl (ErrOther "engine stopped"), env s)) by reflexivity.
  rewrite (QueueEvent_size_query_error _ _ s eq_refl Hq). reflexivity.
Defined.

Lemma QueueAggregateEvent_ignores_marshal_error_witness :
  let s := stub_sys false false (stub_world (inr 3) (inr []) [] [] None) in
  let config := {| ConfigBlob := "cfg" |} in
  calls (snd (QueueAggregateEvent config
                {| Type_ := "aggVariableEvaluated"; Target := "unmarshalable" |}
                s)) =
  [Call_checkEventQueueSize; Call_queueAggregateEvent EmptyString config].
Proof.
  intros s config.
  assert (Hq : lb_checkEventQueueSize (env s) = (inr 3, env s))
    by reflexivity.
  rewrite (QueueAggregateEvent_ignores_marshal_error config _ s
             (err := ErrOther "json: unsupported value") Hq);
    [reflexivity | cbn; lia | reflexivity | reflexivity].
Defined.

Lemma Close_with_failing_final_flush_witness :
  let s := stub_sys false false
             (stub_world (inr 3) (inl (ErrOther "engine busy")) [] [] None) in
  fst (Close s) = Some (ErrOther "engine busy") /\
  closed (queue (snd (Close s))) = true /\
  fst (QueueEvent {| UserId := "u1" |}
                  {| Type_ := "purchase"; Target := "item" |}
                  (snd (Close s))) = Some ErrClosed.
Proof.
  intros s.
  assert (Hq : lb_flushEventQueue (lb_startFlushEvents (env s)) =
               (inl (ErrOther "engine busy"), env s)) by reflexivity.
  exact (Close_with_failing_final_flush s _ _ Hq).
Defined.

(** ** [performRequest] and [handleError] *)

Section RequestMore.

Context {W : Type} {C : Collaborators W}.

(** One run of the closure of [performRequest]: at most one call of the
    endpoint and one sleep, nothing else; a retry is asked for up to
    attempt 5 only. *)
Lemma performRequest_fn_step (c : DVCClient) (path method : string)
    (postBody : UserDataAndEventsBody) (headerParams : list (string * string))
    (attempt : Z) (v : option Response * string) (s : Sys W) :
  let r := performRequest_fn c path method postBody headerParams attempt v s in
  (fst (fst (fst r)) = true -> attempt <= 5) /\
  queue (snd r) = queue s /\
  exists l, calls (snd r) = calls s ++ l /\
            forallb request_call l = true /\
            (attempts l <= 1)%nat /\
            (List.length (filter sleep_call l) <= 1)%nat.
Proof.
  unfold performRequest_fn, callAPI, bind, call, ret, sleep_backoff.
  destruct (prepareRequest c path method postBody headerParams)
    as [err | req].
  { cbn. split; [discriminate |]. split; [reflexivity |].
    exists []. rewrite app_nil_r. cbn. auto. }
  destruct (HTTPClient_Do req (env s)) as [[err | resp] w];
    cbn [fst snd env queue calls];
    [| destruct (is_nil _ && _ && _); cbn [is_nil];
       [| destruct (snd (Body resp)); cbn [is_nil]]];
    try (destruct (rand_Float64 _) as [rnd w']);
    cbn [fst snd env queue calls];
    (split; [apply Z.leb_le |]); (split; [reflexivity |]);
    eexists; rewrite <- ?app_assoc; (split; [reflexivity |]); cbn; auto.
Qed.

Lemma try_Do_loop_bounded {V : Type}
    (fn : Z -> V -> M W ((bool * option error) * V)) :
  (forall attempt v s,
      (fst (fst (fst (fn attempt v s))) = true -> attempt <= 5) /\
      queue (snd (fn attempt v s)) = queue s /\
      exists l, calls (snd (fn attempt v s)) = calls s ++ l /\
                forallb request_call l = true /\
                (attempts l <= 1)%nat /\
                (List.length (filter sleep_call l) <= 1)%nat) ->
  forall fuel attempt v s,
    1 <= attempt <= 6 ->
    queue (snd (try_Do_loop fuel fn attempt v s)) = queue s /\
    exists l, calls (snd (try_Do_loop fuel fn attempt v s)) = calls s ++ l /\
              forallb request_call l = true /\
              (attempts l <= Z.to_nat (7 - attempt))%nat /\
              (List.length (filter sleep_call l) <= Z.to_nat (7 - attempt))%nat.
Proof.
  intros Hfn fuel.
  induction fuel as [| fuel IH]; intros attempt v s Hrange;
    cbn [try_Do_loop]; unfold bind;
    destruct (Hfn attempt v s) as (Hcont & Hq & l1 & Hl1 & Hr1 & Ha1 & Hs1);
    destruct (fn attempt v s) as [[[cont err] v1] s1];
    cbn [fst snd] in *.
  - assert (Hstop : queue s1 = queue s /\
                    exists l, calls s1 = calls s ++ l /\
                      forallb request_call l = true /\
                      (attempts l <= Z.to_nat (7 - attempt))%nat /\
                      (List.length (filter sleep_call l)
                       <= Z.to_nat (7 - attempt))%nat).
    { split; [exact Hq |]. exists l1. repeat split; try assumption; lia. }
    destruct (negb cont || is_nil err); [exact Hstop |].
    destruct (attempt + 1 >? MaxRetries); exact Hstop.
  - assert (Hstop : queue s1 = queue s /\
                    exists l, calls s1 = calls s ++ l /\
                      forallb request_call l = true /\
                      (attempts l <= Z.to_nat (7 - attempt))%nat /\
                      (List.length (filter sleep_call l)
                       <= Z.to_nat (7 - attempt))%nat).
    { split; [exact Hq |]. exists l1. repeat split; try assumption; lia. }
    destruct cont; cbn [negb orb]; [| exact Hstop].
    destruct (is_nil err); [exact Hstop |].
    destruct (attempt + 1 >? MaxRetries); [exact Hstop |].
    specialize (Hcont eq_refl).
    destruct (IH (attempt + 1) v1 s1) as (Hq2 & l2 & Hl2 & Hr2 & Ha2 & Hs2);
      [lia |].
    split; [congruence |].
    exists (l1 ++ l2). split; [now rewrite Hl2, Hl1, app_assoc |].
    split; [rewrite forallb_app, Hr1, Hr2; reflexivity |].
    unfold attempts in *. rewrite !filter_app, !length_app. lia.
Qed.

(** X13.  In every world [performRequest] calls the endpoint at most six
    times and sleeps at most six times; it calls nothing but the endpoint
    and the timer, and it leaves the event queue as it was. *)
Theorem performRequest_attempts_bounded (c : DVCClient) (path method : string)
    (postBody : UserDataAndEventsBody) (headerParams : list (string * string))
    (s : Sys W) :
  let r := performRequest c path method postBody headerParams s in
  queue (snd r) = queue s /\
  exists l, calls (snd r) = calls s ++ l /\
            forallb request_call l = true /\
            (attempts l <= 6)%nat /\
            (List.length (filter sleep_call l) <= 6)%nat.
Proof.
  cbv zeta. unfold performRequest, bind, try_Do.
  match goal with
  | |- context [try_Do_loop ?fuel ?fn ?a0 ?v0 s] =>
      destruct (@try_Do_loop_bounded _ fn
                  (fun n x t => performRequest_fn_step
                                  c path method postBody _ n x t)
                  fuel a0 v0 s) as (Hq & l & Hl & Hr & Ha & Hs);
        [lia |];
      destruct (try_Do_loop fuel fn a0 v0 s) as [[err v1] s1]
  end.
  cbn [fst snd] in *. change (Z.to_nat (7 - 1)) with 6%nat in *.
  destruct err; unfold ret; cbn [snd]; (split; [exact Hq |]);
    exists l; auto.
Qed.

(** X14.  A request that cannot be prepared is not retried:
    [performRequest] returns the error of [prepareRequest] at once, without
    a call of the endpoint and without a sleep. *)
Theorem performRequest_prepare_failure (c : DVCClient) (path method : string)
    (postBody : UserDataAndEventsBody) (headerParams : list (string * string))
    (s : Sys W) (err : error) :
  prepareRequest c path method postBody
    (headerParams ++ [("Content-Type", "application/json");
                      ("Accept", "application/json");
                      ("Authorization", sdkKey c)]%string) = inl err ->
  performRequest c path method postBody headerParams s =
  ((None, EmptyString, Some err), s).
Proof.
  intros Hprep. unfold performRequest, try_Do, bind.
  cbn [Z.to_nat MaxRetries]. destruct (Pos.to_nat 10); cbn [try_Do_loop];
    unfold bind, performRequest_fn; rewrite Hprep; reflexivity.
Qed.

Lemma try_Do_loop_nil_error_inv {V : Type} (Q : V -> Prop)
    (fn : Z -> V -> M W ((bool * option error) * V)) :
  (forall attempt v s,
     snd (fst (fst (fn attempt v s))) = None ->
     Q (snd (fst (fn attempt v s)))) ->
  forall fuel attempt v s,
    fst (fst (try_Do_loop fuel fn attempt v s)) = None ->
    Q (snd (fst (try_Do_loop fuel fn attempt v s))).
Proof.
  intros Hfn fuel. induction fuel as [| fuel IH]; intros attempt v s;
    cbn [try_Do_loop]; unfold bind;
    specialize (Hfn attempt v s);
    destruct (fn attempt v s) as [[[cont err] v1] s1]; cbn [fst snd] in *.
  - destruct (negb cont || is_nil err); [cbn; exact Hfn |].
    destruct (attempt + 1 >? MaxRetries); cbn; discriminate.
  - destruct (negb cont || is_nil err); [cbn; exact Hfn |].
    destruct (attempt + 1 >? MaxRetries); [cbn; discriminate |].
    apply IH.
Qed.

(** X15.  When [performRequest] returns no error, it returns a response
    together with the body of that response, read to its end without an
    error: a caller may read the status code of the response. *)
Theorem performRequest_nil_error_response_and_body (c : DVCClient)
    (path method : string) (postBody : UserDataAndEventsBody)
    (headerParams : list (string * string)) (s : Sys W) :
  let r := fst (performRequest c path method postBody headerParams s) in
  snd r = None ->
  exists resp,
    fst (fst r) = Some resp /\
    snd (fst r) = fst (Body resp) /\
    snd (Body resp) = None.
Proof.
  cbv zeta. unfold performRequest, bind, try_Do.
  set (Q := fun v : option Response * string =>
              exists resp, fst v = Some resp /\ snd v = fst (Body resp) /\
                           snd (Body resp) = None).
  match goal with
  | |- context [try_Do_loop ?fuel ?fn ?a0 ?v0 s] =>
      pose proof (@try_Do_loop_nil_error_inv _ Q fn) as H;
      specialize (fun Hfn => H Hfn fuel a0 v0 s);
      destruct (try_Do_loop fuel fn a0 v0 s) as [[err v1] s1]
  end.
  cbn [fst snd] in *. destruct err as [err |]; unfold ret; cbn [fst snd];
    [discriminate |].
  intros _. apply H; [| reflexivity]. clear H.
  intros attempt v t. subst Q. cbv beta.
  unfold performRequest_fn, callAPI, bind, call, ret, sleep_backoff.
  destruct (prepareRequest _ _ _ _ _) as [err | req]; [cbn; discriminate |].
  destruct (HTTPClient_Do req (env t)) as [[err | resp] w];
    cbn [fst snd env].
  - destruct (rand_Float64 _). cbn. discriminate.
  - destruct (snd (Body resp)) eqn:Hrd; cbn [is_nil andb].
    + destruct (rand_Float64 _). cbn. discriminate.
    + destruct ((StatusCode resp >=? 500) && (attempt <=? 5)); cbn [is_nil].
      * destruct (rand_Float64 _). cbn. discriminate.
      * cbn. intros _. exists resp. auto.
Qed.

(** X16.  [handleError] gives nil for server errors only: it returns nil
    exactly when the status is 500 or more and the body is empty or decodes
    as an error response; every response below 500 gives a
    [GenericError]. *)
Theorem handleError_nil_iff_server_error (r : Response) (body : string) :
  handleError r body = None <->
  StatusCode r >= 500 /\
  (String.length body = 0%nat \/
   decode_ErrorResponse body (ContentType r) = None).
Proof.
  unfold handleError.
  destruct (Nat.ltb_spec 0 (String.length body)) as [Hlen | Hlen].
  - destruct (decode_ErrorResponse body (ContentType r)) as [err |] eqn:Hd.
    + split; [discriminate |]. intros (_ & [H0 | Hn]); [lia | discriminate].
    + destruct (Z.geb_spec (StatusCode r) 500); split;
        try discriminate; try tauto.
      * intros _. split; [lia | now right].
      * intros (Hs & _). lia.
  - destruct (Z.geb_spec (StatusCode r) 500); split;
      try discriminate; try tauto.
    + intros _. split; [lia | left; lia].
    + intros (Hs & _). lia.
Qed.

End RequestMore.

Lemma performRequest_prepare_failure_witness :
  let s := stub_sys true false
             (stub_world (inr 0) (inr []) [] [inr (stub_response 201)] None) in
  performRequest (mock_client true false) ":8080/v1/track" "POST" mock_body [] s
  = ((None, EmptyString, Some (ErrOther "missing protocol scheme")), s).
Proof.
  intros s. apply performRequest_prepare_failure. reflexivity.
Defined.

Lemma performRequest_nil_error_response_and_body_witness :
  let s := stub_sys true false
             (stub_world (inr 0) (inr []) []
                [inl (ErrOther "timeout"); inr (stub_response 404)] None) in
  exists resp,
    fst (fst (fst (performRequest (mock_client true false) "/v1/track" "POST"
                                  mock_body [] s))) = Some resp /\
    snd (fst (fst (performRequest (mock_client true false) "/v1/track" "POST"
                                  mock_body [] s))) = fst (Body resp) /\
    snd (Body resp) = None.
Proof.
  intros s.
  apply (performRequest_nil_error_response_and_body
           (mock_client true false) "/v1/track" "POST" mock_body [] s).
  reflexivity.
Defined.

Lemma handleError_nil_iff_server_error_witness :
  handleError (C := StubCollaborators) (stub_response 503) "{}" = None /\
  handleError (C := StubCollaborators) (stub_response 404) "{}" <> None.
Proof.
  split.
  - apply (proj2 (handleError_nil_iff_server_error (C := StubCollaborators)
                    (stub_response 503) "{}")).
    split; [vm_compute; discriminate | right; reflexivity].
  - intros H.
    apply (proj1 (handleError_nil_iff_server_error (C := StubCollaborators)
                    (stub_response 404) "{}")) in H.
    destruct H as [H _]. vm_compute in H. apply H. reflexivity.
Defined.

(** ** [Track] *)

Section TrackMore.

Context {W : Type} {C : Collaborators W}.

(** X17.  [Track] never reports success together with an error: whenever
    its flag is true its error is nil, in local and in cloud mode. *)
Theorem Track_success_flag_implies_nil_error (c : DVCClient) (user : DVCUser)
    (event : DVCEvent) (s : Sys W) :
  fst (fst (Track c user event s)) = true ->
  snd (fst (Track c user event s)) = None.
Proof.
  unfold Track.
  destruct (DisableCustomEventLogging (DevCycleOptions c)); [reflexivity |].
  destruct (String.eqb (Type_ event) EmptyString); [discriminate |].
  destruct (negb (EnableCloudBucketing (DevCycleOptions c))).
  - destruct (isInitialized c); [| reflexivity].
    unfold bind, ret. destruct (QueueEvent user event s) as [[err |] s1];
      cbn; [discriminate | reflexivity].
  - unfold bind, ret.
    destruct (performRequest _ _ _ _ _ s) as [[[[r |] rBody] [err |]] s1];
      cbn [fst snd]; try discriminate.
    destruct (StatusCode r <? 300); [| discriminate].
    destruct (decode_nil rBody (ContentType r)); [reflexivity | discriminate].
Qed.

(** X18.  With custom event logging enabled, an event without a type is
    rejected with "event type is required" before anything else happens:
    the queue, the engine and the endpoint are left as they were, in local
    and in cloud mode, initialized or not. *)
Theorem Track_rejects_event_without_type (c : DVCClient) (user : DVCUser)
    (event : DVCEvent) (s : Sys W) :
  DisableCustomEventLogging (DevCycleOptions c) = false ->
  Type_ event = EmptyString ->
  Track c user event s = ((false, Some ErrEventTypeRequired), s).
Proof.
  intros Hd Ht. unfold Track. rewrite Hd, Ht. reflexivity.
Qed.

(** X19.  In local bucketing mode, before the client is initialized,
    [Track] answers [(true, nil)] for a typed event although the event is
    dropped: the event queue and the engine are not touched. *)
Theorem Track_before_initialization (c : DVCClient) (user : DVCUser)
    (event : DVCEvent) (s : Sys W) :
  DisableCustomEventLogging (DevCycleOptions c) = false ->
  Type_ event <> EmptyString ->
  EnableCloudBucketing (DevCycleOptions c) = false ->
  isInitialized c = false ->
  Track c user event s = ((true, None), s).
Proof.
  intros Hd Ht Hc Hi. unfold Track. rewrite Hd, Hc, Hi.
  destruct (String.eqb_spec (Type_ event) EmptyString); [contradiction |].
  reflexivity.
Qed.

(** X20.  After [Close], in local bucketing mode, [Track] of a typed event
    fails with the Closed error and flag false, whatever was done with the
    queue in between, and the event does not reach the engine. *)
Theorem Track_after_Close (c : DVCClient) (user : DVCUser) (event : DVCEvent)
    (s : Sys W) (ops : list Op) :
  DisableCustomEventLogging (DevCycleOptions c) = false ->
  Type_ event <> EmptyString ->
  EnableCloudBucketing (DevCycleOptions c) = false ->
  isInitialized c = true ->
  let s' := run_ops ops (snd (Close s)) in
  Track c user event s' = ((false, Some ErrClosed), s').
Proof.
  intros Hd Ht Hc Hi s'. unfold Track. rewrite Hd, Hc, Hi.
  destruct (String.eqb_spec (Type_ event) EmptyString); [contradiction |].
  cbn [negb]. unfold bind, ret.
  rewrite QueueEvent_closed; [reflexivity |].
  apply closed_run_ops, closed_Close.
Qed.

(** X21.  In cloud mode, when the first attempt is answered by a response
    below 300 whose body is read, [Track] makes that one call and returns a
    nil error; its flag is true exactly when decoding the body (into nil)
    gives an error, and false when the decoding succeeds. *)
Theorem Track_cloud_flag_follows_decode_error (c : DVCClient) (user : DVCUser)
    (event : DVCEvent) (s : Sys W) (req : Request) (resp : Response) (w : W) :
  DisableCustomEventLogging (DevCycleOptions c) = false ->
  Type_ event <> EmptyString ->
  EnableCloudBucketing (DevCycleOptions c) = true ->
  prepareRequest c (BasePath (client_cfg c) ++ "/v1/track")%string "POST"
    {| User := getPopulatedUser user; Events := [event] |}
    [("Content-Type", "application/json"); ("Accept", "application/json");
     ("Authorization", sdkKey c)]%string = inr req ->
  HTTPClient_Do req (env s) = (inr resp, w) ->
  StatusCode resp < 300 ->
  snd (Body resp) = None ->
  Track c user event s =
  ((negb (is_nil (decode_nil (fst (Body resp)) (ContentType resp))), None),
   {| queue := queue s; env := w;
      calls := calls s ++ [Call_HTTPClient_Do req] |}).
Proof.
  intros Hd Ht Hc Hreq Hdo Hst Hrd. unfold Track. rewrite Hd, Hc.
  destruct (String.eqb_spec (Type_ event) EmptyString); [contradiction |].
  cbn [negb]. unfold bind.
  rewrite (performRequest_response_below_500_returned_at_once
             c _ _ _ [] s Hreq Hdo); [| lia | exact Hrd].
  destruct (Z.ltb_spec (StatusCode resp) 300); [| lia].
  destruct (decode_nil _ _); reflexivity.
Qed.

End TrackMore.

Lemma Track_success_flag_implies_nil_error_witness :
  let s := stub_sys false false (stub_world (inr 3) (inr []) [] [] None) in
  snd (fst (Track (mock_client false false) {| UserId := "u1" |}
                  {| Type_ := "purchase"; Target := "item" |} s)) = None.
Proof.
  intros s. apply Track_success_flag_implies_nil_error. reflexivity.
Defined.

Lemma Track_rejects_event_without_type_witness :
  let s := mock_sys true (mock_world 0 [] 201 true) in
  Track (mock_client true false) {| UserId := "u1" |}
        {| Type_ := ""; Target := "item" |} s
  = ((false, Some ErrEventTypeRequired), s).
Proof.
  intros s. apply Track_rejects_event_without_type; reflexivity.
Defined.

Lemma Track_before_initialization_witness :
  let s := mock_sys false (mock_world 0 [] 201 true) in
  let c := {| DevCycleOptions := mock_options; client_cfg := mock_cfg;
              sdkKey := "server-key"; isInitialized := false |} in
  Track c {| UserId := "u1" |} {| Type_ := "purchase"; Target := "item" |} s
  = ((true, None), s).
Proof.
  intros s c.
  apply Track_before_initialization; try reflexivity. discriminate.
Defined.

Lemma Track_after_Close_witness :
  let s := mock_sys false (mock_world 3 [mock_payload "p1"] 201 true) in
  let s' := run_ops [OpFlushEvents; OpMetrics] (snd (Close s)) in
  Track (mock_client false false) {| UserId := "u1" |}
        {| Type_ := "purchase"; Target := "item" |} s'
  = ((false, Some ErrClosed), s').
Proof.
  intros s.
  apply (Track_after_Close (mock_client false false) {| UserId := "u1" |}
           {| Type_ := "purchase"; Target := "item" |} s
           [OpFlushEvents; OpMetrics]); try reflexivity.
  discriminate.
Defined.

Lemma Track_cloud_flag_follows_decode_error_witness :
  let s := mock_sys false (mock_world 0 [] 201 true) in
  fst (Track (mock_client true false) {| UserId := "u1" |}
             {| Type_ := "purchase"; Target := "item" |} s) = (false, None).
Proof.
  intros s.
  erewrite (Track_cloud_flag_follows_decode_error (mock_client true false)
              {| UserId := "u1" |} {| Type_ := "purchase"; Target := "item" |} s).
  - reflexivity.
  - reflexivity.
  - discriminate.
  - reflexivity.
  - reflexivity.
  - reflexivity.
  - vm_compute. reflexivity.
  - reflexivity.
Defined.

(** ** [exponentialBackoff] and the time slept *)


Lemma Q_trunc_le (p q : Q) :
  (0 <= p)%Q -> (p <= q)%Q -> Q_trunc p <= Q_trunc q.
Proof.
  intros Hp Hpq. unfold Q_trunc.
  assert (Hq : (0 <= q)%Q) by (eapply Qle_trans; eassumption).
  apply Qle_bool_iff in Hp. apply Qle_bool_iff in Hq. rewrite Hp, Hq.
  now apply Qfloor_resp_le.
Qed.



Lemma Q_trunc_inject_Z (z : Z) : 0 <= z -> Q_trunc (inject_Z z) = z.
Proof.
  intros Hz. unfold Q_trunc.
  assert (H : (0 <= inject_Z z)%Q) by (unfold Qle; cbn; lia).
  apply Qle_bool_iff in H. rewrite H. apply Qfloor_Z.
Qed.

Lemma backoff_base_inject_Z (a : Z) :
  0 <= a -> (backoff_base a == inject_Z (100 * 2 ^ a))%Q.
Proof.
  intros Ha. unfold backoff_base.
  rewrite inject_Z_mult, (Zpower_Qpower 2 a Ha).
  change (inject_Z 2) with 2%Q. change (inject_Z 100) with 100%Q.
  apply Qmult_comm.
Qed.

(** The whole milliseconds slept after attempt [a]: between the base and
    120% of it. *)
Lemma backoff_trunc_bounds (a : Z) (r : Q) :
  0 <= a -> (0 <= r)%Q -> (r < 1)%Q ->
  100 * 2 ^ a <= Q_trunc (exponentialBackoff a r) <= 120 * 2 ^ a.
Proof.
  intros Ha Hr0 Hr1.
  pose proof (backoff_base_pos a) as Hpos.
  pose proof (backoff_base_inject_Z Ha) as Hbase.
  assert (Hp : 0 < 2 ^ a) by (apply Z.pow_pos_nonneg; lia).
  split.
  - rewrite <- (Q_trunc_inject_Z (z := 100 * 2 ^ a)) by lia.
    apply Q_trunc_le.
    + rewrite <- Hbase. now apply Qlt_le_weak.
    + rewrite <- Hbase. unfold exponentialBackoff. fold (backoff_base a). nra.
  - rewrite <- (Q_trunc_inject_Z (z := 120 * 2 ^ a)) by lia.
    apply Q_trunc_le.
    + unfold exponentialBackoff. fold (backoff_base a). nra.
    + assert (H120 : (inject_Z (120 * 2 ^ a) == (12 # 10) * backoff_base a)%Q).
      { rewrite Hbase, !inject_Z_mult.
        change (inject_Z 120) with 120%Q. change (inject_Z 100) with 100%Q.
        ring. }
      rewrite H120. unfold exponentialBackoff. fold (backoff_base a). nra.
Qed.

Section SleepBound.

Context {W : Type} {C : Collaborators W}.

Hypothesis rand_in_unit_interval :
  forall w : W, (0 <= fst (rand_Float64 w))%Q /\ (fst (rand_Float64 w) < 1)%Q.

Lemma total_sleep_app (l1 l2 : list Call) :
  total_sleep (l1 ++ l2) = total_sleep l1 + total_sleep l2.
Proof.
  induction l1 as [| c l1 IH]; cbn; [reflexivity |].
  fold (total_sleep (l1 ++ l2)) (total_sleep l1). rewrite IH.
  destruct c; lia.
Qed.

Lemma performRequest_fn_sleep (c : DVCClient) (path method : string)
    (postBody : UserDataAndEventsBody) (headerParams : list (string * string))
    (attempt : Z) (v : option Response * string) (s : Sys W) :
  0 <= attempt ->
  let r := performRequest_fn c path method postBody headerParams attempt v s in
  exists l, calls (snd r) = calls s ++ l /\
            0 <= total_sleep l <= 120 * 2 ^ attempt /\
            sleeps_within (100 * 2 ^ attempt) (120 * 2 ^ attempt) l.
Proof.
  intros Ha.
  assert (Hp : 0 < 2 ^ attempt) by (apply Z.pow_pos_nonneg; lia).
  assert (Hnone : forall l : list Call,
             forallb dispatch_call l = true ->
             0 <= total_sleep l <= 120 * 2 ^ attempt /\
             sleeps_within (100 * 2 ^ attempt) (120 * 2 ^ attempt) l).
  { intros l Hl. rewrite forallb_forall in Hl. split.
    - assert (H0 : total_sleep l = 0).
      { induction l as [| x l IH]; [reflexivity |].
        cbn. fold (total_sleep l).
        rewrite IH by (intros y Hy; apply Hl; now right).
        specialize (Hl x (or_introl eq_refl)). destruct x; try discriminate.
        reflexivity. }
      rewrite H0. lia.
    - intros ms Hin. apply Hl in Hin. discriminate. }
  assert (Hone : forall (req : Request) (w : W),
             0 <= total_sleep
                    [Call_HTTPClient_Do req;
                     Call_Sleep (Q_trunc (exponentialBackoff attempt
                                            (fst (rand_Float64 w))))]
               <= 120 * 2 ^ attempt /\
             sleeps_within (100 * 2 ^ attempt) (120 * 2 ^ attempt)
               [Call_HTTPClient_Do req;
                Call_Sleep (Q_trunc (exponentialBackoff attempt
                                       (fst (rand_Float64 w))))]).
  { intros req w. destruct (rand_in_unit_interval w) as [H0 H1].
    pose proof (backoff_trunc_bounds Ha H0 H1) as Hb. split.
    - unfold total_sleep. cbn [fold_right]. lia.
    - intros ms [Hin | [Hin | []]]; [discriminate |].
      injection Hin as <-. exact Hb. }
  unfold performRequest_fn, callAPI, bind, call, ret, sleep_backoff.
  destruct (prepareRequest c path method postBody headerParams)
    as [err | req].
  { cbn [snd]. exists []. rewrite app_nil_r.
    split; [reflexivity | now apply Hnone]. }
  destruct (HTTPClient_Do req (env s)) as [[err | resp] w];
    cbn [fst snd env queue calls];
    [| destruct (is_nil _ && _ && _); cbn [is_nil];
       [| destruct (snd (Body resp)); cbn [is_nil]]];
    cbn [fst snd env queue calls];
    try (pose proof (Hone req w) as Hw;
         destruct (rand_Float64 w) as [rnd w']; cbn [fst] in Hw);
    cbn [fst snd env queue calls];
    eexists; rewrite <- ?app_assoc; (split; [reflexivity |]);
    try exact Hw.
  now apply Hnone.
Qed.

Lemma try_Do_loop_sleep {V : Type}
    (fn : Z -> V -> M W ((bool * option error) * V)) :
  (forall attempt v s,
      (fst (fst (fst (fn attempt v s))) = true -> attempt <= 5) /\
      (0 <= attempt ->
       exists l, calls (snd (fn attempt v s)) = calls s ++ l /\
                 0 <= total_sleep l <= 120 * 2 ^ attempt /\
                 sleeps_within (100 * 2 ^ attempt) (120 * 2 ^ attempt) l)) ->
  forall fuel attempt v s,
    1 <= attempt <= 6 ->
    exists l, calls (snd (try_Do_loop fuel fn attempt v s)) = calls s ++ l /\
              0 <= total_sleep l <= 120 * (128 - 2 ^ attempt) /\
              sleeps_within 200 7680 l.
Proof.
  intros Hfn fuel.
  induction fuel as [| fuel IH]; intros attempt v s Hrange;
    cbn [try_Do_loop]; unfold bind;
    destruct (Hfn attempt v s) as (Hcont & Hsl);
    destruct Hsl as (l1 & Hl1 & Ht1 & Hw1); [lia | | lia |];
    assert (Hlo : 2 <= 2 ^ attempt)
      by (change 2 with (2 ^ 1) at 1; apply Z.pow_le_mono_r; lia);
    assert (Hhi : 2 ^ attempt <= 64)
      by (change 64 with (2 ^ 6); apply Z.pow_le_mono_r; lia);
    assert (Hstop : exists l,
               calls (snd (fn attempt v s)) = calls s ++ l /\
               0 <= total_sleep l <= 120 * (128 - 2 ^ attempt) /\
               sleeps_within 200 7680 l)
      by (exists l1; split; [exact Hl1 |]; split; [lia |];
          intros ms Hin; apply Hw1 in Hin; lia);
    destruct (fn attempt v s) as [[[cont err] v1] s1];
    cbn [fst snd] in *.
  - destruct (negb cont || is_nil err); [exact Hstop |].
    destruct (attempt + 1 >? MaxRetries); exact Hstop.
  - destruct cont; cbn [negb orb]; [| exact Hstop].
    destruct (is_nil err); [exact Hstop |].
    destruct (attempt + 1 >? MaxRetries); [exact Hstop |].
    specialize (Hcont eq_refl).
    destruct (IH (attempt + 1) v1 s1) as (l2 & Hl2 & Ht2 & Hw2); [lia |].
    assert (Hsucc : 2 ^ (attempt + 1) = 2 * 2 ^ attempt)
      by (rewrite Z.pow_add_r by lia; lia).
    exists (l1 ++ l2). split; [now rewrite Hl2, Hl1, app_assoc |].
    split; [rewrite total_sleep_app; lia |].
    intros ms Hin. apply in_app_or in Hin. destruct Hin as [Hin | Hin].
    + apply Hw1 in Hin. lia.
    + now apply Hw2.
Qed.

(** X23.  The time that [performRequest] spends asleep is bounded: with
    draws of [rand.Float64] in [0, 1), every sleep lasts between 200 and
    7680 milliseconds and the sleeps of one call add up to at most 15120
    milliseconds.  (float64 read as exact rationals.) *)
Theorem performRequest_sleeps_at_most_15120_ms (c : DVCClient)
    (path method : string) (postBody : UserDataAndEventsBody)
    (headerParams : list (string * string)) (s : Sys W) :
  exists l,
    calls (snd (performRequest c path method postBody headerParams s)) =
      calls s ++ l /\
    0 <= total_sleep l <= 15120 /\
    sleeps_within 200 7680 l.
Proof.
  unfold performRequest, bind, try_Do.
  match goal with
  | |- context [try_Do_loop ?fuel ?fn ?a0 ?v0 s] =>
      destruct (@try_Do_loop_sleep _ fn
                  (fun n x t =>
                     conj (proj1 (performRequest_fn_step
                                    c path method postBody _ n x t))
                          (fun Hn => performRequest_fn_sleep
                                       c path method postBody _ x t Hn))
                  fuel a0 v0 s) as (l & Hl & Ht & Hw);
        [lia |];
      destruct (try_Do_loop fuel fn a0 v0 s) as [[err v1] s1]
  end.
  cbn [fst snd] in *. change (120 * (128 - 2 ^ 1)) with 15120 in Ht.
  destruct err; unfold ret; cbn [snd]; exists l; auto.
Qed.

End SleepBound.

Lemma performRequest_sleeps_at_most_15120_ms_witness :
  let s := mock_sys false (mock_world 0 [] 201 false) in
  exists l,
    calls (snd (performRequest (mock_client true false) "/v1/track" "POST"
                               mock_body [] s)) = calls s ++ l /\
    0 <= total_sleep l <= 15120 /\
    sleeps_within 200 7680 l.
Proof.
  intros s. apply performRequest_sleeps_at_most_15120_ms.
  intros w. split; [discriminate | reflexivity].
Defined.

(** ** SDK keys and default values *)

Lemma prefix_app (p : string) :
  forall s t : string,
    String.prefix p s = true -> String.prefix p (s ++ t) = true.
Proof.
  induction p as [| a p IH]; intros s t H.
  - now destruct (s ++ t)%string.
  - destruct s as [| b s]; [discriminate |].
    cbn in *. destruct (Ascii.ascii_dec a b); [| discriminate].
    now apply IH.
Qed.

Lemma prefix_length (p : string) :
  forall s : string,
    String.prefix p s = true -> (String.length p <= String.length s)%nat.
Proof.
  induction p as [| a p IH]; intros s H.
  - cbn. lia.
  - destruct s as [| b s]; [discriminate |].
    cbn in *. destruct (Ascii.ascii_dec a b); [| discriminate].
    apply IH in H. lia.
Qed.

(** X24.  A key that [sdkKeyIsValid] accepts has at least six characters,
    so it is not empty, and it stays accepted whatever is appended to
    it. *)
Theorem sdkKeyIsValid_accepts_extensions (key : string) :
  sdkKeyIsValid key = true ->
  (6 <= String.length key)%nat /\
  forall suffix, sdkKeyIsValid (key ++ suffix) = true.
Proof.
  unfold sdkKeyIsValid. intros H. apply orb_true_iff in H.
  destruct H as [H | H].
  - split; [apply prefix_length in H; cbn in H; lia |].
    intros suffix. now rewrite (prefix_app _ _ suffix H).
  - split; [apply prefix_length in H; cbn in H; lia |].
    intros suffix. rewrite (prefix_app _ _ suffix H). apply orb_true_r.
Qed.

Lemma sdkKeyIsValid_accepts_extensions_witness :
  sdkKeyIsValid ("dvc_server" ++ "_token_1234") = true.
Proof.
  apply (proj2 (sdkKeyIsValid_accepts_extensions "dvc_server" eq_refl)).
Defined.

Lemma GoType_eqb_refl (t : GoType) : GoType_eqb t t = true.
Proof. destruct t; cbn; try reflexivity. apply String.eqb_refl. Qed.

Lemma compareTypes_refl (value : any) : compareTypes value value = true.
Proof.
  unfold compareTypes. destruct (TypeOf value); [apply GoType_eqb_refl |].
  reflexivity.
Qed.



(** ** The client's [FlushEvents] and [Variable] *)

Section VariableMore.

Context {W : Type} {C : Collaborators W} {B : Bucketing W}.



Lemma generateBucketedConfig_failure (user : DVCUser) (s : Sys W) :
  snd (fst (generateBucketedConfig user s)) <> None ->
  fst (fst (generateBucketedConfig user s)) = zero_BucketedUserConfig.
Proof.
  unfold generateBucketedConfig, bind, call_unlogged, ret.
  destruct (json_Marshal_user user) as [err | userJSON]; [reflexivity |].
  destruct (lb_GenerateBucketedConfigForUser userJSON (env s))
    as [[err | config] w]; cbn; [reflexivity | congruence].
Qed.

Lemma generateBucketedConfig_calls (user : DVCUser) (s : Sys W) :
  calls (snd (generateBucketedConfig user s)) = calls s /\
  queue (snd (generateBucketedConfig user s)) = queue s.
Proof.
  unfold generateBucketedConfig, bind, call_unlogged, ret.
  destruct (json_Marshal_user user) as [err | userJSON]; [split; reflexivity |].
  destruct (lb_GenerateBucketedConfigForUser userJSON (env s))
    as [[err | config] w]; split; reflexivity.
Qed.

(** [performRequest], for any body, gives a response whenever it gives no
    error: [Variable] does not read the status of a nil response. *)
Lemma performRequest_fn_of_nil_error (prepared : result Request)
    (attempt : Z) (v : option Response * string) (s : Sys W) :
  let r := fst (performRequest_fn_of prepared attempt v s) in
  snd (fst r) = None -> fst (snd r) <> None.
Proof.
  unfold performRequest_fn_of, callAPI, bind, call, ret, sleep_backoff.
  destruct prepared as [err | req]; [cbn; discriminate |].
  destruct (HTTPClient_Do req (env s)) as [[err | resp] w];
    cbn [fst snd env].
  - destruct (rand_Float64 _). cbn. discriminate.
  - destruct (is_nil _ && _ && _); cbn [is_nil].
    + destruct (rand_Float64 _). cbn. discriminate.
    + destruct (snd (Body resp)); cbn [is_nil].
      * destruct (rand_Float64 _). cbn. discriminate.
      * cbn. discriminate.
Qed.

Lemma performRequest_of_nil_error_gives_response (c : DVCClient)
    (prepare : list (string * string) -> result Request)
    (headerParams : list (string * string)) (s : Sys W) :
  let r := fst (performRequest_of c prepare headerParams s) in
  snd r = None -> fst (fst r) <> None.
Proof.
  unfold performRequest_of, bind, try_Do.
  match goal with
  | |- context [try_Do_loop ?fuel ?fn ?a0 ?v0 s] =>
      pose proof (try_Do_loop_nil_error fst fn
                    (fun n x t => performRequest_fn_of_nil_error _ n x t)
                    fuel a0 v0 s) as H;
      destruct (try_Do_loop fuel fn a0 v0 s) as [[err v1] s1]
  end.
  cbn [fst snd] in *. destruct err; cbn; [discriminate | exact H].
Qed.

(** [Variable] in local bucketing mode, with a config and with automatic
    event logging. *)
Lemma Variable_local_unfold (c : DVCClient) (userdata : DVCUser)
    (key : string) (defaultValue : any) (s : Sys W) (variableType : string) :
  key <> EmptyString ->
  variableTypeFromValue key (convertDefaultValueType defaultValue)
  = (variableType, None) ->
  EnableCloudBucketing (DevCycleOptions c) = false ->
  DisableAutomaticEventLogging (DevCycleOptions c) = false ->
  cm_hasConfig (env s) = true ->
  let converted := convertDefaultValueType defaultValue in
  let be := generateBucketedConfig userdata s in
  let bucketed := fst (fst be) in
  let value := lookup_Value (config_Variables bucketed) key in
  let used := negb (is_nil_any value) && compareTypes value converted in
  let variable := default_variable key variableType converted in
  Variable_ c userdata key defaultValue s =
  ((if used then with_value variable value else variable, None),
   snd (QueueAggregateEvent bucketed
          {| Type_ := if used then EventType_AggVariableEvaluated
                      else EventType_AggVariableDefaulted;
             Target := key |} (snd be))).
Proof.
  intros Hkey Htype Hcloud Hauto Hcfg. cbv zeta. unfold Variable_.
  destruct (String.eqb_spec key EmptyString); [contradiction |].
  rewrite Htype, Hcloud, Hauto. cbn [negb].
  unfold bind, hasConfig, queueAggregateEvent, ret. rewrite Hcfg. cbn [negb].
  destruct (generateBucketedConfig userdata s) as [[bucketed err] s1].
  cbn [fst snd].
  destruct (QueueAggregateEvent bucketed _ s1) as [e s2]. reflexivity.
Qed.

(** X27.  Whatever the mode, the collaborators and the outcome, the value
    of the variable that [Variable] returns has the type of its default
    value; a variable marked as defaulted carries the default value, and
    the default value is the caller's default after its conversion, unless
    the call fails on its input and returns the zero variable. *)
Theorem Variable_value_has_the_type_of_the_default (c : DVCClient)
    (userdata : DVCUser) (key : string) (defaultValue : any) (s : Sys W) :
  let v := fst (fst (Variable_ c userdata key defaultValue s)) in
  compareTypes (Value v) (DefaultValue v) = true /\
  (IsDefaulted v = true -> Value v = DefaultValue v) /\
  (v = zero_Variable \/
   (Key v = key /\ DefaultValue v = convertDefaultValueType defaultValue)).
Proof.
  cbv zeta. unfold Variable_.
  destruct (String.eqb key EmptyString); [cbn; auto |].
  destruct (variableTypeFromValue key (convertDefaultValueType defaultValue))
    as [variableType [err |]]; [cbn; auto |].
  set (converted := convertDefaultValueType defaultValue).
  set (variable := default_variable key variableType converted).
  assert (Hdef : compareTypes (Value variable) (DefaultValue variable) = true /\
                 (IsDefaulted variable = true ->
                  Value variable = DefaultValue variable) /\
                 (variable = zero_Variable \/
                  (Key variable = key /\ DefaultValue variable = converted))).
  { cbn. split; [apply compareTypes_refl |]. auto. }
  assert (Hval : forall value,
             compareTypes value converted = true ->
             compareTypes (Value (with_value variable value))
                          (DefaultValue (with_value variable value)) = true /\
             (IsDefaulted (with_value variable value) = true ->
              Value (with_value variable value)
              = DefaultValue (with_value variable value)) /\
             (with_value variable value = zero_Variable \/
              (Key (with_value variable value) = key /\
               DefaultValue (with_value variable value) = converted))).
  { intros value Hv. cbn. split; [exact Hv |]. split; [discriminate | auto]. }
  destruct (negb (EnableCloudBucketing (DevCycleOptions c))).
  - unfold bind, hasConfig, queueAggregateEvent, ret.
    destruct (negb (cm_hasConfig (env s))); [exact Hdef |].
    destruct (generateBucketedConfig userdata s) as [[bucketed err] s1].
    cbn [fst snd].
    destruct (negb (is_nil_any _) && compareTypes _ converted) eqn:Hused.
    + apply andb_true_iff in Hused. destruct Hused as [_ Hsame].
      destruct (negb (DisableAutomaticEventLogging _));
        [destruct (QueueAggregateEvent bucketed _ s1) |];
        cbn [fst snd]; now apply Hval.
    + destruct (negb (DisableAutomaticEventLogging _));
        [destruct (QueueAggregateEvent bucketed _ s1) |];
        cbn [fst snd]; exact Hdef.
  - unfold bind, ret.
    destruct (performRequest_of _ _ _ s) as [[[[r |] body] [err |]] s1];
      cbn [fst snd]; try exact Hdef.
    destruct (StatusCode r <? 300); [| exact Hdef].
    destruct (decode_Variable body (ContentType r)) as [e | [typed |]];
      try exact Hdef.
    destruct (compareTypes (Some typed) converted) eqn:Hsame;
      cbn [fst snd]; [now apply Hval | exact Hdef].
Qed.

(** X28.  [Variable] refuses an empty key, and a default value that is
    nil or of a type other than a number, a string, a boolean or
    [map[string]any]: it returns the zero variable and an error, and the
    queue, the engine and the endpoint are left as they were. *)
Theorem Variable_rejects_invalid_input (c : DVCClient) (userdata : DVCUser)
    (key : string) (defaultValue : any) (s : Sys W) :
  key = EmptyString \/
  snd (variableTypeFromValue key (convertDefaultValueType defaultValue))
  <> None ->
  exists err,
    Variable_ c userdata key defaultValue s = ((zero_Variable, Some err), s).
Proof.
  intros H. unfold Variable_.
  destruct (String.eqb_spec key EmptyString) as [-> | Hkey];
    [eexists; reflexivity |].
  destruct H as [H | H]; [contradiction |].
  destruct (variableTypeFromValue key (convertDefaultValueType defaultValue))
    as [variableType [err |]]; [eexists; reflexivity |].
  now contradiction H.
Qed.

(** X29.  In local bucketing mode with automatic event logging,
    [Variable] returns a nil error for every valid key and default value,
    also when the bucketing or the queueing of the event fails.  Without a
    config it returns the default and calls nothing; when the bucketing
    fails it returns the default as well. *)
Theorem Variable_local_mode_returns_no_error (c : DVCClient)
    (userdata : DVCUser) (key : string) (defaultValue : any) (s : Sys W)
    (variableType : string) :
  key <> EmptyString ->
  variableTypeFromValue key (convertDefaultValueType defaultValue)
  = (variableType, None) ->
  EnableCloudBucketing (DevCycleOptions c) = false ->
  DisableAutomaticEventLogging (DevCycleOptions c) = false ->
  let r := Variable_ c userdata key defaultValue s in
  let default := default_variable key variableType
                   (convertDefaultValueType defaultValue) in
  snd (fst r) = None /\
  (cm_hasConfig (env s) = false -> r = ((default, None), s)) /\
  (cm_hasConfig (env s) = true ->
   snd (fst (generateBucketedConfig userdata s)) <> None ->
   fst (fst r) = default).
Proof.
  intros Hkey Htype Hcloud Hauto. cbv zeta.
  destruct (cm_hasConfig (env s)) eqn:Hcfg.
  - rewrite (Variable_local_unfold c userdata defaultValue s
               Hkey Htype Hcloud Hauto Hcfg).
    cbn [fst snd]. split; [reflexivity |]. split; [discriminate |].
    intros _ Hfail.
    rewrite (generateBucketedConfig_failure userdata s Hfail).
    rewrite config_Variables_zero. reflexivity.
  - assert (Hr : Variable_ c userdata key defaultValue s =
                 ((default_variable key variableType
                     (convertDefaultValueType defaultValue), None), s)).
    { unfold Variable_.
      destruct (String.eqb_spec key EmptyString); [contradiction |].
      rewrite Htype, Hcloud. cbn [negb]. unfold bind, hasConfig.
      rewrite Hcfg. reflexivity. }
    rewrite Hr. cbn [fst snd]. split; [reflexivity |].
    split; [reflexivity | discriminate].
Qed.

(** X30.  In local bucketing mode with a config and automatic event
    logging, [Variable] hands one aggregate event to the event queue, by
    [QueueAggregateEvent], with the bucketed config and the key as target;
    the event is of type aggVariableEvaluated when the returned variable
    takes its value from the config and aggVariableDefaulted when it is
    defaulted, and the value is taken from the config exactly when the
    config has a non-nil value of the default's type for the key. *)
Theorem Variable_local_mode_queues_one_aggregate_event (c : DVCClient)
    (userdata : DVCUser) (key : string) (defaultValue : any) (s : Sys W)
    (variableType : string) :
  key <> EmptyString ->
  variableTypeFromValue key (convertDefaultValueType defaultValue)
  = (variableType, None) ->
  EnableCloudBucketing (DevCycleOptions c) = false ->
  DisableAutomaticEventLogging (DevCycleOptions c) = false ->
  cm_hasConfig (env s) = true ->
  let r := Variable_ c userdata key defaultValue s in
  let v := fst (fst r) in
  let be := generateBucketedConfig userdata s in
  let value := lookup_Value (config_Variables (fst (fst be))) key in
  snd r =
    snd (QueueAggregateEvent (fst (fst be))
           {| Type_ := if IsDefaulted v then EventType_AggVariableDefaulted
                       else EventType_AggVariableEvaluated;
              Target := key |} (snd be)) /\
  calls (snd be) = calls s /\
  (IsDefaulted v = false <->
   value <> None /\
   compareTypes value (convertDefaultValueType defaultValue) = true) /\
  (IsDefaulted v = false -> Value v = value).
Proof.
  intros Hkey Htype Hcloud Hauto Hcfg. cbv zeta.
  rewrite (Variable_local_unfold c userdata defaultValue s
             Hkey Htype Hcloud Hauto Hcfg).
  cbn [fst snd].
  split; [| split; [apply generateBucketedConfig_calls |]].
  - destruct (negb (is_nil_any _) && compareTypes _ _); reflexivity.
  - destruct (lookup_Value _ key) as [typed |]; cbn [is_nil_any negb andb].
    + destruct (compareTypes (Some typed) _); cbn; split;
        try (split; [intros _; split; [discriminate | reflexivity]
                    | reflexivity]);
        try reflexivity.
      * split; [discriminate | intros [_ H]; discriminate].
      * discriminate.
    + cbn. split; [| discriminate].
      split; [discriminate | intros [H _]; now contradiction H].
Qed.

End VariableMore.

(** [prepareRequest] and [performRequest] are the instances of their
    general forms at the body of [Track]. *)
Lemma performRequest_is_performRequest_of {W : Type} {C : Collaborators W}
    (c : DVCClient) (path method : string) (postBody : UserDataAndEventsBody)
    (headerParams : list (string * string)) :
  performRequest c path method postBody headerParams =
  performRequest_of c
    (prepareRequest_body c path method
       (setBody postBody "application/json"%string)) headerParams.
Proof. reflexivity. Qed.


Lemma Variable_value_has_the_type_of_the_default_witness :
  let s := client_stub_sys
             (client_stub true (inr {| ConfigBlob := "cfg" |})
                (stub_world (inr 3) (inr []) [] [] None)) in
  let v := fst (fst (Variable_ (mock_client false false) {| UserId := "u1" |}
                       "max-items" (Some (T_int, D_number 5)) s)) in
  Value v = Some (T_float64, D_number 10) /\
  compareTypes (Value v) (DefaultValue v) = true.
Proof.
  intros s v. split; [reflexivity |].
  exact (proj1 (Variable_value_has_the_type_of_the_default
                  (mock_client false false) {| UserId := "u1" |}
                  "max-items" (Some (T_int, D_number 5)) s)).
Defined.

Lemma Variable_rejects_invalid_input_witness :
  let s := client_stub_sys
             (client_stub true (inr {| ConfigBlob := "cfg" |})
                (stub_world (inr 3) (inr []) [] [] None)) in
  exists err,
    Variable_ (mock_client false false) {| UserId := "u1" |} "title"
              (Some (T_other "[]string", D_opaque "[a b]")) s
    = ((zero_Variable, Some err), s).
Proof.
  intros s. apply Variable_rejects_invalid_input. right. discriminate.
Defined.

Lemma Variable_local_mode_returns_no_error_witness :
  let s := client_stub_sys
             (client_stub true (inl (ErrOther "bucketing failed"))
                (stub_world (inr 3) (inr []) [] []
                            (Some (ErrOther "queue error")))) in
  let r := Variable_ (mock_client false false) {| UserId := "u1" |} "title"
                     (Some (T_string, D_string "Hello")) s in
  snd (fst r) = None /\
  fst (fst r) = default_variable "title" "String"
                  (Some (T_string, D_string "Hello")).
Proof.
  intros s r.
  assert (Hkey : "title"%string <> EmptyString) by discriminate.
  destruct (Variable_local_mode_returns_no_error
              (mock_client false false) {| UserId := "u1" |}
              (Some (T_string, D_string "Hello")) s
              (variableType := "String") Hkey eq_refl eq_refl eq_refl)
    as (He & _ & Hd).
  split; [exact He |]. apply Hd; [reflexivity | discriminate].
Defined.

Lemma Variable_local_mode_queues_one_aggregate_event_witness :
  let s := client_stub_sys
             (client_stub true (inr {| ConfigBlob := "cfg" |})
                (stub_world (inr 3) (inr []) [] [] None)) in
  calls (snd (Variable_ (mock_client false false) {| UserId := "u1" |}
                "dark-mode" (Some (T_bool, D_bool false)) s)) =
  [Call_checkEventQueueSize;
   Call_queueAggregateEvent "aggVariableEvaluated" {| ConfigBlob := "cfg" |}].
Proof.
  intros s.
  assert (Hkey : "dark-mode"%string <> EmptyString) by discriminate.
  assert (Hcfg : cm_hasConfig (env s) = true) by reflexivity.
  destruct (Variable_local_mode_queues_one_aggregate_event
              (mock_client false false) {| UserId := "u1" |}
              (Some (T_bool, D_bool false)) s
              (variableType := "Boolean") Hkey eq_refl eq_refl eq_refl
              Hcfg)
    as (Hs & _).
  rewrite Hs. reflexivity.
Defined.
